(** * SkillHub: the REST backend of a skills tracker, embedded in Rocq

    The server (an Express application, one file of route handlers plus the
    PostgreSQL pool) is embedded as state-passing functions over a [world]
    that holds the two tables, the statements sent to the pool so far and
    the failures the pool is going to raise.  Handlers are written in a
    small promise monad so that each definition can be read side by side
    with the JavaScript it comes from.

    Third-party packages are interfaces here: [TokenService] stands for
    jsonwebtoken and [CredentialHasher] for bcrypt, each with the contract
    the specification gives it.  A reference implementation of both shows
    that the contracts can be met and runs the handlers on concrete
    requests.  Calls to the logger write to the console and to a file only
    and are left out. *)

From Stdlib Require Import Ascii ZArith Lia.
From stdpp Require Import base decidable option list gmap strings countable.

Local Open Scope Z_scope.

(* ===================================================================== *)
(** * JavaScript values as the handlers see them *)
(* ===================================================================== *)

Module Js.

(** [s.slice(n)] *)
Fixpoint slice (n : nat) (s : string) : string :=
  match n, s with
  | O, _ => s
  | S n', String _ s' => slice n' s'
  | S _, EmptyString => EmptyString
  end.

(** [s.replace(pat, rep)] with a string pattern: the first occurrence of
    [pat] in [s] is replaced, wherever it starts; a string without an
    occurrence is returned as it is. *)
Fixpoint replace (pat rep s : string) : string :=
  if String.prefix pat s then rep +:+ slice (String.length pat) s
  else match s with
       | EmptyString => EmptyString
       | String c s' => String c (replace pat rep s')
       end.

(** A field read from a parsed JSON body, or a header: [None] is
    [undefined].  The routes take text fields (spec 4.3, 4.4, 4.6). *)
Definition value := option string.

(** [!v]: [undefined] and the empty string are falsy. *)
Definition not (v : value) : bool :=
  match v with
  | None => true
  | Some s => bool_decide (s = "")
  end.

(** The text handed on once [v] has been tested truthy. *)
Definition text (v : value) : string := default "" v.

End Js.

(* ===================================================================== *)
(** * Persistence gateway *)
(* ===================================================================== *)

(** Modelled from the spec: the schema of the database is not in the
    repository; spec sections 3 and 6 give [users(id, username, email,
    password)] and [skills(id, user_id, skill_name, proficiency)] with
    generated numeric ids. *)
Module User.
Record row := Row { id : Z; username : string; email : string; password : string }.
Global Instance row_eq_dec : EqDecision row.
Proof. solve_decision. Defined.
End User.

Module Skill.
Record row := Row { id : Z; user_id : Z; skill_name : string; proficiency : string }.
Global Instance row_eq_dec : EqDecision row.
Proof. solve_decision. Defined.
End Skill.

Record database := Database {
  users : list User.row;
  users_id_seq : Z;
  skills : list Skill.row;
  skills_id_seq : Z
}.

(** The SQL texts that appear in the handlers, with their parameters. *)
Inductive users_sql :=
  | SelectUsers
  | SelectUsersByEmail (email : string)
  | SelectUsersByUsername (username : string)
  | InsertUser (username email password : string).

Inductive skills_sql :=
  | SelectSkillsByUser (user_id : Z)
  | InsertSkill (user_id : Z) (skill_name proficiency : string)
  | UpdateSkill (skill_name proficiency : string) (id : Z)
  | DeleteSkill (id : Z).

Inductive statement :=
  | OnUsers (q : users_sql)
  | OnSkills (q : skills_sql).

(** [SET skill_name = $1, proficiency = $2]: id and owner stay. *)
Definition set_skill (skill_name proficiency : string) (r : Skill.row) : Skill.row :=
  Skill.Row (Skill.id r) (Skill.user_id r) skill_name proficiency.

(** What a statement returns in [result.rows], and the database after it.
    A table is the list of its rows in the order of their insertion, and a
    result lists its rows in that order; the source selects without ORDER
    BY, so where the order of a result matters to a property the property
    says so. *)
Definition exec_users (q : users_sql) (d : database) : list User.row * database :=
  match q with
  | SelectUsers => (users d, d)
  | SelectUsersByEmail e =>
      (filter (λ r, User.email r = e) (users d), d)
  | SelectUsersByUsername u =>
      (filter (λ r, User.username r = u) (users d), d)
  | InsertUser u e p =>
      let r := User.Row (users_id_seq d + 1) u e p in
      ([r], Database (users d ++ [r]) (users_id_seq d + 1) (skills d) (skills_id_seq d))
  end.

Definition exec_skills (q : skills_sql) (d : database) : list Skill.row * database :=
  match q with
  | SelectSkillsByUser uid =>
      (filter (λ r, Skill.user_id r = uid) (skills d), d)
  | InsertSkill uid n p =>
      let r := Skill.Row (skills_id_seq d + 1) uid n p in
      ([r], Database (users d) (users_id_seq d) (skills d ++ [r]) (skills_id_seq d + 1))
  | UpdateSkill n p i =>
      (set_skill n p <$> filter (λ r, Skill.id r = i) (skills d),
       Database (users d) (users_id_seq d)
         ((λ r, if decide (Skill.id r = i) then set_skill n p r else r) <$> skills d)
         (skills_id_seq d))
  | DeleteSkill i =>
      (filter (λ r, Skill.id r = i) (skills d),
       Database (users d) (users_id_seq d)
         (filter (λ r, Skill.id r ≠ i) (skills d)) (skills_id_seq d))
  end.

(** The world a request runs in: the database, the statements sent to the
    pool so far (oldest first), and for each of the coming statements
    whether the pool rejects it (connection lost, constraint violated);
    an exhausted list means no further rejection. *)
Record world := World {
  db : database;
  sent : list statement;
  faults : list bool
}.

(** A promise: awaited in a world, it resolves with a value or rejects
    with an error message. *)
Inductive settled (A : Type) :=
  | Resolved (a : A)
  | Rejected (message : string).
Arguments Resolved {A} a.
Arguments Rejected {A} message.

Definition Async (A : Type) : Type := world → settled A * world.

Global Instance async_ret : MRet Async := λ A a w, (Resolved a, w).
Global Instance async_bind : MBind Async := λ A B f m w,
  match m w with
  | (Resolved a, w') => f a w'
  | (Rejected e, w') => (Rejected e, w')
  end.

(** [try { m } catch (err) { h err }] *)
Definition try_catch {A} (m : Async A) (h : string → Async A) : Async A := λ w,
  match m w with
  | (Resolved a, w') => (Resolved a, w')
  | (Rejected e, w') => h e w'
  end.

Definition throw {A} (message : string) : Async A := λ w, (Rejected message, w).

Definition pool_error : string := "pool: query failed".

(** [pool.query(text, params)].  The call settles: the pool resolves it
    with the rows or rejects it, and a call that never settles is not
    modelled.  A rejected statement has not run: the tables and the id
    sequences are as they were. *)
Definition pool_query {R} (tag : statement) (run : database → R * database)
    : Async R := λ w,
  match faults w with
  | true :: fs => (Rejected pool_error, World (db w) (sent w ++ [tag]) fs)
  | _ => let '(rows, d) := run (db w) in
         (Resolved rows, World d (sent w ++ [tag]) (tail (faults w)))
  end.

Definition query_users (q : users_sql) : Async (list User.row) :=
  pool_query (OnUsers q) (exec_users q).

Definition query_skills (q : skills_sql) : Async (list Skill.row) :=
  pool_query (OnSkills q) (exec_skills q).

(* ===================================================================== *)
(** * Token service and credential hasher *)
(* ===================================================================== *)

Module Jwt.
(** The payload the login route signs. *)
Record claims := Claims { userId : Z; username : string; email : string }.

(** What [jwt.verify] returns: the signed claims with the issue and
    expiry times the library added, in seconds. *)
Record payload := Payload { identity : claims; iat : Z; exp : Z }.

Inductive error := InvalidSignature | Expired.
End Jwt.

(** Modelled from the spec: the jsonwebtoken package is not in the
    repository; spec 4.1 gives the contract of the token service, [issue]
    and [verify].  The clock is the reading of the time in whole seconds
    and [expiresIn] is in seconds.  A token verifies from its issue up to
    its expiry, to the claims that were signed, and is refused as expired
    once the clock has passed the expiry; the laws say nothing of the very
    second of expiry.  The empty string is no token. *)
Class TokenService := {
  jwt_sign : Jwt.claims → string → Z → Z → string;
  jwt_verify : string → string → Z → Jwt.error + Jwt.payload;
  jwt_verify_sign : ∀ c key expiresIn now now',
    now ≤ now' < now + expiresIn →
    jwt_verify (jwt_sign c key expiresIn now) key now'
    = inr (Jwt.Payload c now (now + expiresIn));
  jwt_verify_expired : ∀ c key expiresIn now now',
    now + expiresIn < now' →
    jwt_verify (jwt_sign c key expiresIn now) key now' = inl Jwt.Expired;
  jwt_verify_empty : ∀ key now,
    jwt_verify "" key now = inl Jwt.InvalidSignature
}.

(** Modelled from the spec: the bcrypt package is not in the repository;
    spec 2 and 3 give the contract of the credential hasher, salted
    one-way hashing and verification.  [bcrypt_hash data rounds salt] is
    the digest when [salt] is the salt the library draws; a digest
    verifies against the data it was made from and is never that data. *)
Class CredentialHasher := {
  bcrypt_hash : string → nat → string → string;
  bcrypt_compare : string → string → bool;
  bcrypt_compare_hash : ∀ data rounds salt,
    bcrypt_compare data (bcrypt_hash data rounds salt) = true;
  bcrypt_hash_one_way : ∀ data rounds salt,
    bcrypt_hash data rounds salt ≠ data
}.

(* ===================================================================== *)
(** * Requests and responses *)
(* ===================================================================== *)

Record request := Request {
  authorization : Js.value;          (* req.header('Authorization') *)
  body : gmap string string;         (* req.body *)
  params_id : Z;                     (* req.params.id, as the id it denotes *)
  user : option Jwt.payload          (* req.user *)
}.

Definition with_user (req : request) (decoded : Jwt.payload) : request :=
  Request (authorization req) (body req) (params_id req) (Some decoded).

(** The JSON documents the routes send. *)
Inductive json :=
  | Text (s : string)
  | Error (error : string)
  | ErrorDetails (error details : string)
  | Users (rows : list User.row)
  | Skills (rows : list Skill.row)
  | Registered (message : string) (user : option User.row)
  | LoggedIn (message : string) (token : string)
  | SkillSaved (message : string) (skill : option Skill.row)
  | Message (message : string).

Record response := Response { status : Z; sent_body : json }.

(** [res.status(code).json(doc)], and [res.json(doc)] with the default 200. *)
Definition status_json (code : Z) (doc : json) : Async response :=
  mret (Response code doc).
Definition res_json (doc : json) : Async response := status_json 200 doc.

Definition secret : string := "your_secret_key".

(** ['1h'] in seconds. *)
Definition one_hour : Z := 3600.

(* ===================================================================== *)
(** * Middleware and route handlers *)
(* ===================================================================== *)

Section Server.
Context {tokens : TokenService} {hasher : CredentialHasher}.

(** [authenticate]: the handler [next] runs on the request with the
    decoded payload attached.  The handlers are async functions that catch
    their own failures, so the [catch] here is reached by [jwt.verify]
    alone. *)
Definition authenticate (now : Z) (next : request → Async response)
    (req : request) : Async response :=
  let token := Js.replace "Bearer " "" <$> authorization req in
  if Js.not token then
    status_json 401 (Error "Access denied, token missing")
  else
    match jwt_verify (Js.text token) secret now with
    | inr decoded => next (with_user req decoded)
    | inl _ => status_json 400 (Error "Invalid token")
    end.

(** [GET /] *)
Definition root (req : request) : Async response :=
  res_json (Text "Welcome to SkillHub!").

(** [GET /users] *)
Definition get_users (req : request) : Async response :=
  try_catch
    (rows ← query_users SelectUsers;
     res_json (Users rows))
    (λ err, status_json 500 (Error "Error fetching users")).

(** [POST /register]; [salt] is the salt bcrypt draws. *)
Definition register (salt : string) (req : request) : Async response :=
  let username := body req !! "username" in
  let email := body req !! "email" in
  let password := body req !! "password" in
  if Js.not username || Js.not email || Js.not password then
    status_json 400
      (Error "Please provide all required fields (username, email, password)")
  else
    try_catch
      (checkEmail ← query_users (SelectUsersByEmail (Js.text email));
       if bool_decide (0 < length checkEmail)%nat then
         status_json 400 (Error "Email already exists")
       else
         checkUsername ← query_users (SelectUsersByUsername (Js.text username));
         if bool_decide (0 < length checkUsername)%nat then
           status_json 400 (Error "Username already exists")
         else
           let hashedPassword := bcrypt_hash (Js.text password) 10 salt in
           result ← query_users
             (InsertUser (Js.text username) (Js.text email) hashedPassword);
           status_json 201
             (Registered "User registered successfully" (head result)))
      (λ err, status_json 500 (ErrorDetails "Error registering user" err)).

(** [POST /login]; [now] is the clock when the token is signed. *)
Definition login (now : Z) (req : request) : Async response :=
  let email := body req !! "email" in
  let password := body req !! "password" in
  if Js.not email || Js.not password then
    status_json 400 (Error "Please provide both email and password")
  else
    try_catch
      (result ← query_users (SelectUsersByEmail (Js.text email));
       match head result with
       | None => status_json 404 (Error "User not found")
       | Some user =>
           let isMatch := bcrypt_compare (Js.text password) (User.password user) in
           if negb isMatch then
             status_json 401 (Error "Incorrect password")
           else
             let token :=
               jwt_sign
                 (Jwt.Claims (User.id user) (User.username user) (User.email user))
                 secret one_hour now in
             res_json (LoggedIn "Login successful" token)
       end)
      (λ err, status_json 500 (Error "Error logging in user")).

(** [req.user.userId]: reading it off a request without a payload is a
    TypeError, raised inside the handler's [try]. *)
Definition req_user_userId (req : request) : Async Z :=
  match user req with
  | Some decoded => mret (Jwt.userId (Jwt.identity decoded))
  | None => throw "TypeError: Cannot read properties of undefined"
  end.

(** [GET /skills] *)
Definition get_skills (req : request) : Async response :=
  try_catch
    (userId ← req_user_userId req;
     rows ← query_skills (SelectSkillsByUser userId);
     res_json (Skills rows))
    (λ err, status_json 500 (Error "Error fetching skills")).

(** [POST /skills] *)
Definition post_skills (req : request) : Async response :=
  let skill_name := body req !! "skill_name" in
  let proficiency := body req !! "proficiency" in
  if Js.not skill_name || Js.not proficiency then
    status_json 400 (Error "Please provide both skill name and proficiency")
  else
    try_catch
      (userId ← req_user_userId req;
       result ← query_skills
         (InsertSkill userId (Js.text skill_name) (Js.text proficiency));
       status_json 201 (SkillSaved "Skill added successfully" (head result)))
      (λ err, status_json 500 (Error "Error adding skill")).

(** [PUT /skills/:id] *)
Definition put_skill (req : request) : Async response :=
  let skill_name := body req !! "skill_name" in
  let proficiency := body req !! "proficiency" in
  let skillId := params_id req in
  if Js.not skill_name || Js.not proficiency then
    status_json 400 (Error "Please provide both skill name and proficiency")
  else
    try_catch
      (result ← query_skills
         (UpdateSkill (Js.text skill_name) (Js.text proficiency) skillId);
       if bool_decide (length result = 0%nat) then
         status_json 404 (Error "Skill not found")
       else
         res_json (SkillSaved "Skill updated successfully" (head result)))
      (λ err, status_json 500 (Error "Error updating skill")).

(** [DELETE /skills/:id] *)
Definition delete_skill (req : request) : Async response :=
  let skillId := params_id req in
  try_catch
    (result ← query_skills (DeleteSkill skillId);
     if bool_decide (length result = 0%nat) then
       status_json 404 (Error "Skill not found")
     else
       res_json (Message "Skill deleted successfully"))
    (λ err, status_json 500 (Error "Error deleting skill")).

(** The routing table. *)
Inductive route :=
  | GET_root | GET_users | POST_register | POST_login
  | GET_skills | POST_skills | PUT_skills_id | DELETE_skills_id.

(** What the outside decides while a request is served: the clock, the
    salt bcrypt draws, and the statements the pool rejects. *)
Record environment := Environment {
  clock : Z;
  drawn_salt : string;
  pool_faults : list bool
}.

Definition app (rt : route) (env : environment) : request → Async response :=
  match rt with
  | GET_root => root
  | GET_users => authenticate (clock env) get_users
  | POST_register => register (drawn_salt env)
  | POST_login => login (clock env)
  | GET_skills => authenticate (clock env) get_skills
  | POST_skills => authenticate (clock env) post_skills
  | PUT_skills_id => authenticate (clock env) put_skill
  | DELETE_skills_id => authenticate (clock env) delete_skill
  end.

(** Serving one request: the handler runs against the current tables
    with the environment's faults; a handler that settles without
    sending anything would leave the client waiting ([None]). *)
Definition serve (rt : route) (env : environment) (req : request) (w : world)
    : option response * world :=
  match app rt env req (World (db w) (sent w) (pool_faults env)) with
  | (Resolved r, w') => (Some r, w')
  | (Rejected _, w') => (None, w')
  end.

(** One request served, from anyone, at any time, and served whole: the
    handler runs to its answer before the next request is taken up.  For
    requests whose handlers interleave at their awaits see [interleave]. *)
Definition step (w w' : world) : Prop :=
  ∃ rt env req, w' = (serve rt env req w).2.

Definition reachable : world → world → Prop := rtc step.

End Server.

(* ===================================================================== *)
(** * Vocabulary of the properties *)
(* ===================================================================== *)

Section Vocabulary.
Context {tokens : TokenService} {hasher : CredentialHasher}.

(** No statement to come is rejected. *)
Definition quiet (fs : list bool) : bool := forallb negb fs.

(** The row a registration inserts. *)
Definition new_user (salt : string) (req : request) (d : database) : User.row :=
  User.Row (users_id_seq d + 1)
    (Js.text (body req !! "username")) (Js.text (body req !! "email"))
    (bcrypt_hash (Js.text (body req !! "password")) 10 salt).

Definition fields_given (req : request) : bool :=
  negb (Js.not (body req !! "username") || Js.not (body req !! "email")
        || Js.not (body req !! "password")).

Definition email_taken (req : request) (d : database) : list User.row :=
  filter (λ r, User.email r = Js.text (body req !! "email")) (users d).

Definition username_taken (req : request) (d : database) : list User.row :=
  filter (λ r, User.username r = Js.text (body req !! "username")) (users d).

(** A required field is missing when the key is absent or its text is
    empty: the handlers test [!field]. *)
Definition missing (v : Js.value) : Prop := v = None ∨ v = Some "".

(** The rows the login look-up returns, in storage order. *)
Definition login_found (req : request) (d : database) : list User.row :=
  filter (λ r, User.email r = Js.text (body req !! "email")) (users d).

(** The token the login route signs for a row. *)
Definition login_token (now : Z) (user : User.row) : string :=
  jwt_sign (Jwt.Claims (User.id user) (User.username user) (User.email user))
    secret one_hour now.

(** The answer of a login whose fields are given, once the look-up went
    through. *)
Definition login_answer (now : Z) (req : request) (d : database) : response :=
  match head (login_found req d) with
  | None => Response 404 (Error "User not found")
  | Some user =>
      if bcrypt_compare (Js.text (body req !! "password")) (User.password user)
      then Response 200 (LoggedIn "Login successful" (login_token now user))
      else Response 401 (Error "Incorrect password")
  end.

(** What is left of the header for [jwt.verify]. *)
Definition bearer_token (header : string) : string :=
  Js.replace "Bearer " "" header.

(** The caller presents a header whose token verifies to [decoded]. *)
Definition verified (now : Z) (req : request) (decoded : Jwt.payload) : Prop :=
  ∃ header, authorization req = Some header
            ∧ jwt_verify (bearer_token header) secret now = inr decoded.

(** The rows a statement on [id = $n] hits. *)
Definition skill_hits (i : Z) (d : database) : list Skill.row :=
  filter (λ r, Skill.id r = i) (skills d).

(** The row an add-skill request inserts for a caller. *)
Definition new_skill (req : request) (caller : Z) (d : database) : Skill.row :=
  Skill.Row (skills_id_seq d + 1) caller
    (Js.text (body req !! "skill_name")) (Js.text (body req !! "proficiency")).

Definition skill_fields_given (req : request) : bool :=
  negb (Js.not (body req !! "skill_name") || Js.not (body req !! "proficiency")).

(** The table after [UPDATE ... WHERE id = i]. *)
Definition updated_skills (req : request) (d : database) : list Skill.row :=
  (λ r, if decide (Skill.id r = params_id req)
        then set_skill (Js.text (body req !! "skill_name"))
               (Js.text (body req !! "proficiency")) r
        else r) <$> skills d.

(** The same request with one more field in its body. *)
Definition with_field (k v : string) (req : request) : request :=
  Request (authorization req) (<[k:=v]> (body req)) (params_id req) (user req).

(** The same request with a field taken out of its body. *)
Definition without_field (k : string) (req : request) : request :=
  Request (authorization req) (delete k (body req)) (params_id req) (user req).

(** A handler that leaves the users table alone, whatever the pool does. *)
Definition keeps_users (handler : request → Async response) : Prop :=
  ∀ req w o w', handler req w = (o, w') → users (db w') = users (db w).

(** The row is the one row with its email: what the login look-up needs
    to find the account that was registered. *)
Definition sole_owner (u : User.row) (d : database) : Prop :=
  filter (λ r, User.email r = User.email u) (users d) = [u].

(** Every stored password is a digest of some text. *)
Definition hashed_at_rest (d : database) : Prop :=
  ∀ row, row ∈ users d →
    ∃ data salt, User.password row = bcrypt_hash data 10 salt.

(** The routes behind [authenticate]. *)
Definition protected (rt : route) : bool :=
  match rt with
  | GET_root | POST_register | POST_login => false
  | GET_users | GET_skills | POST_skills | PUT_skills_id | DELETE_skills_id => true
  end.

(** The statuses a route sends, read off its handler and the middleware
    in front of it. *)
Definition status_codes (rt : route) : list Z :=
  match rt with
  | GET_root => [200]
  | GET_users => [401; 400; 200; 500]
  | POST_register => [400; 201; 500]
  | POST_login => [400; 404; 401; 200; 500]
  | GET_skills => [401; 400; 200; 500]
  | POST_skills => [401; 400; 201; 500]
  | PUT_skills_id => [401; 400; 404; 200; 500]
  | DELETE_skills_id => [401; 400; 404; 200; 500]
  end.

(** The same request under another Authorization header. *)
Definition with_authorization (header : Js.value) (req : request) : request :=
  Request header (body req) (params_id req) (user req).

(** The text holds a space. *)
Fixpoint has_space (s : string) : bool :=
  match s with
  | EmptyString => false
  | String c s' => bool_decide (c = " "%char) || has_space s'
  end.

(** No two accounts share an email, and no two share a username. *)
Definition unique_accounts (d : database) : Prop :=
  NoDup (User.email <$> users d) ∧ NoDup (User.username <$> users d).

(** What an update may not change of a skill row. *)
Definition skill_key (r : Skill.row) : Z * Z := (Skill.id r, Skill.user_id r).

End Vocabulary.

(* ===================================================================== *)
(** * Requests in flight *)
(* ===================================================================== *)

(** The handlers are async functions: at each [await pool.query(...)] a
    handler yields, and other requests run before it resumes.  A handler
    between two awaits has either answered, or waits for the pool to settle
    a statement on the users table and resumes with what the pool gives
    it. *)
Inductive in_flight :=
  | Finished (o : settled response)
  | AwaitUsers (q : users_sql) (resume : settled (list User.row) → in_flight).

Section InFlight.
Context {hasher : CredentialHasher}.

(** [POST /register], await by await: the body of the handler of
    [register], cut where it yields to the pool.  (It also yields at
    [await bcrypt.hash], between the second look-up and the insert, where
    it touches nothing.) *)
Definition register_in_flight (salt : string) (req : request) : in_flight :=
  let username := body req !! "username" in
  let email := body req !! "email" in
  let password := body req !! "password" in
  let caught err :=
    Finished (Resolved (Response 500 (ErrorDetails "Error registering user" err))) in
  if Js.not username || Js.not email || Js.not password then
    Finished (Resolved (Response 400
      (Error "Please provide all required fields (username, email, password)")))
  else
    AwaitUsers (SelectUsersByEmail (Js.text email)) (λ checked,
      match checked with
      | Rejected err => caught err
      | Resolved checkEmail =>
          if bool_decide (0 < length checkEmail)%nat then
            Finished (Resolved (Response 400 (Error "Email already exists")))
          else
            AwaitUsers (SelectUsersByUsername (Js.text username)) (λ checked,
              match checked with
              | Rejected err => caught err
              | Resolved checkUsername =>
                  if bool_decide (0 < length checkUsername)%nat then
                    Finished (Resolved
                      (Response 400 (Error "Username already exists")))
                  else
                    let hashedPassword := bcrypt_hash (Js.text password) 10 salt in
                    AwaitUsers
                      (InsertUser (Js.text username) (Js.text email) hashedPassword)
                      (λ inserted,
                        match inserted with
                        | Rejected err => caught err
                        | Resolved result =>
                            Finished (Resolved (Response 201
                              (Registered "User registered successfully"
                                 (head result))))
                        end)
              end)
      end).

End InFlight.

(** The request runs up to its next await: the pool settles the statement
    it waits for. *)
Definition advance (p : in_flight) (w : world) : in_flight * world :=
  match p with
  | Finished o => (p, w)
  | AwaitUsers q resume => let '(settled, w') := query_users q w in (resume settled, w')
  end.

(** The request runs to its answer with nothing in between. *)
Fixpoint to_completion (p : in_flight) : Async response := λ w,
  match p with
  | Finished o => (o, w)
  | AwaitUsers q resume =>
      let '(settled, w') := query_users q w in to_completion (resume settled) w'
  end.

(** Requests served concurrently: the schedule names, turn by turn, the
    request in flight that runs up to its next await. *)
Fixpoint interleave (schedule : list nat) (pending : list in_flight) (w : world)
    : list in_flight * world :=
  match schedule with
  | [] => (pending, w)
  | i :: schedule' =>
      match pending !! i with
      | Some p =>
          let '(p', w') := advance p w in
          interleave schedule' (<[i:=p']> pending) w'
      | None => interleave schedule' pending w
      end
  end.

(* ===================================================================== *)
(** * Reference implementations of the two interfaces *)
(* ===================================================================== *)

(** A token service and a hasher that satisfy the contracts above and can
    be run.  They carry no cryptography: the token is a readable encoding
    of the payload and the key, the digest a marked copy of the data. *)
Module Reference.

Fixpoint bits (p : positive) : string :=
  match p with
  | xH => ""
  | xO p' => String "0"%char (bits p')
  | xI p' => String "1"%char (bits p')
  end.

Fixpoint of_bits (s : string) : option positive :=
  match s with
  | EmptyString => Some xH
  | String c s' =>
      if decide (c = "0"%char) then xO <$> of_bits s'
      else if decide (c = "1"%char) then xI <$> of_bits s'
      else None
  end.

Definition signed : Type := Z * string * string * Z * Z * string.

Definition sign (c : Jwt.claims) (key : string) (expiresIn now : Z) : string :=
  let content : signed :=
    (Jwt.userId c, Jwt.username c, Jwt.email c, now, now + expiresIn, key) in
  String "J"%char (bits (encode content)).

Definition verify (token key : string) (now : Z) : Jwt.error + Jwt.payload :=
  match token with
  | String "J"%char s =>
      match of_bits s ≫= decode (A := signed) with
      | Some (uid, un, em, iat, exp, k) =>
          if decide (k = key) then
            if decide (exp ≤ now) then inl Jwt.Expired
            else inr (Jwt.Payload (Jwt.Claims uid un em) iat exp)
          else inl Jwt.InvalidSignature
      | None => inl Jwt.InvalidSignature
      end
  | _ => inl Jwt.InvalidSignature
  end.

Definition hash (data : string) (rounds : nat) (salt : string) : string :=
  String "$"%char data.

Definition compare (data digest : string) : bool :=
  bool_decide (digest = String "$"%char data).

End Reference.

(** A database to run the handlers on. *)
Definition empty_database : database := Database [] 0 [] 0.
Definition boot : world := World empty_database [] [].

Definition post (fields : list (string * string)) : request :=
  Request None (list_to_map fields) 0 None.

Definition bearer (token : string) (fields : list (string * string)) (id : Z)
    : request :=
  Request (Some ("Bearer " +:+ token)) (list_to_map fields) id None.

(* ===================================================================== *)
(** * Basic facts *)
(* ===================================================================== *)

Lemma slice_length_app (p s : string) : Js.slice (String.length p) (p +:+ s) = s.
Proof. induction p as [| c p IH]; [done | exact IH]. Qed.

Lemma prefix_app (p s : string) : String.prefix p (p +:+ s) = true.
Proof.
  induction p as [| c p IH]; [by destruct s |].
  simpl. destruct (Ascii.ascii_dec c c); [exact IH | done].
Qed.

Lemma prefix_true_app (p s : string) :
  String.prefix p s = true → ∃ t, s = p +:+ t.
Proof.
  revert s. induction p as [| c p IH]; intros s Hp; [by exists s |].
  destruct s as [| b s]; [done |]. simpl in Hp.
  destruct (Ascii.ascii_dec c b) as [-> |]; [| done].
  destruct (IH _ Hp) as [t ->]. by exists t.
Qed.

Lemma app_empty_r (p : string) : p +:+ "" = p.
Proof.
  induction p as [| c p IH]; [done |].
  change (String c p +:+ "") with (String c (p +:+ "")). by rewrite IH.
Qed.

Lemma prefix_refl (p : string) : String.prefix p p = true.
Proof.
  induction p as [| a p IH]; [done |].
  simpl. by destruct (Ascii.ascii_dec a a).
Qed.

Lemma replace_unfold (pat rep s : string) :
  Js.replace pat rep s
  = if String.prefix pat s then rep +:+ Js.slice (String.length pat) s
    else match s with
         | EmptyString => EmptyString
         | String c s' => String c (Js.replace pat rep s')
         end.
Proof. by destruct s. Qed.

(** Stripping the bearer prefix of [Bearer <token>] leaves the token. *)
Lemma replace_prefix (p t : string) : Js.replace p "" (p +:+ t) = t.
Proof. rewrite replace_unfold, prefix_app. apply slice_length_app. Qed.

(** Only the empty header and the bare pattern are emptied by the
    replacement. *)
Lemma replace_empty_iff (p s : string) :
  p ≠ "" → Js.replace p "" s = "" ↔ s = "" ∨ s = p.
Proof.
  intros Hp. rewrite replace_unfold.
  destruct (String.prefix p s) eqn:Hpre.
  - destruct (prefix_true_app _ _ Hpre) as [t ->].
    rewrite slice_length_app. change ("" +:+ t) with t. split.
    + intros ->. right. apply app_empty_r.
    + intros [Hs | Hs].
      * destruct p; [done | discriminate Hs].
      * rewrite <- (app_empty_r p) in Hs at 2.
        by apply (inj (String.app p)) in Hs.
  - destruct s as [| c s]; [split; [by left | done] |].
    split; [done |]. intros [? | <-]; [done |].
    by rewrite prefix_refl in Hpre.
Qed.

Lemma js_not_true (v : Js.value) : Js.not v = true ↔ v = None ∨ v = Some "".
Proof.
  destruct v as [s |]; simpl.
  - rewrite bool_decide_eq_true. split; [intros ->; by right |].
    by intros [? | [= ->]].
  - split; [by left | done].
Qed.

Lemma js_not_false (v : Js.value) :
  Js.not v = false ↔ ∃ s, v = Some s ∧ s ≠ "".
Proof.
  destruct v as [s |]; simpl.
  - rewrite bool_decide_eq_false. split; [by exists s |].
    by intros (s' & [= ->] & ?).
  - split; [done |]. by intros (s' & ? & _).
Qed.

(** ** The reference implementations meet the contracts *)

Lemma of_bits_bits p : Reference.of_bits (Reference.bits p) = Some p.
Proof. induction p as [p IH | p IH |]; simpl; rewrite ?IH; done. Qed.

Lemma verify_sign_content c key expiresIn now now' :
  Reference.verify (Reference.sign c key expiresIn now) key now'
  = if decide (now + expiresIn ≤ now') then inl Jwt.Expired
    else inr (Jwt.Payload c now (now + expiresIn)).
Proof.
  unfold Reference.verify, Reference.sign. rewrite of_bits_bits. simpl.
  rewrite decode_encode. rewrite decide_True by done.
  destruct c; done.
Qed.

Lemma string_cons_neq (a : ascii) (s : string) : String a s ≠ s.
Proof. induction s as [| b s IH]; [done |]. intros [= -> Hs]. by apply IH. Qed.

Definition reference_tokens : TokenService.
Proof.
  refine {| jwt_sign := Reference.sign; jwt_verify := Reference.verify |}.
  - intros c key expiresIn now now' Hnow.
    rewrite verify_sign_content. rewrite decide_False by lia. done.
  - intros c key expiresIn now now' Hnow.
    rewrite verify_sign_content. rewrite decide_True by lia. done.
  - done.
Defined.

Definition reference_hasher : CredentialHasher.
Proof.
  refine {| bcrypt_hash := Reference.hash; bcrypt_compare := Reference.compare |}.
  - intros data rounds salt. unfold Reference.compare, Reference.hash.
    by rewrite bool_decide_eq_true.
  - intros data rounds salt. apply string_cons_neq.
Defined.

(** ** The pool *)

Lemma quiet_tail (fs : list bool) : quiet fs = true → quiet (tail fs) = true.
Proof. destruct fs as [| [] fs]; simpl; done. Qed.

Lemma pool_query_quiet {R} (tag : statement) (run : database → R * database) w :
  quiet (faults w) = true →
  pool_query tag run w
  = (Resolved (run (db w)).1,
     World (run (db w)).2 (sent w ++ [tag]) (tail (faults w))).
Proof.
  intros Hq. unfold pool_query.
  destruct (faults w) as [| [] fs]; [| done |]; by destruct (run (db w)).
Qed.

(** Whatever the pool does, the statement is on record, and the tables
    change only by a statement that went through. *)
Lemma pool_query_inv {R} (tag : statement) (run : database → R * database)
    w (o : settled R) w' :
  pool_query tag run w = (o, w') →
  sent w' = sent w ++ [tag] ∧
  ((o = Rejected pool_error ∧ db w' = db w) ∨
   (o = Resolved (run (db w)).1 ∧ db w' = (run (db w)).2)).
Proof.
  unfold pool_query. intros Hrun.
  destruct (faults w) as [| [] fs]; destruct (run (db w)) as [rows d];
    simplify_eq; simpl; auto.
Qed.

Ltac unfold_async :=
  unfold res_json, status_json, query_users, query_skills, try_catch, throw,
    mbind, async_bind, mret, async_ret in *.

(** Run the next statement of the handler whose run is a hypothesis,
    whatever the pool answers: one goal where the statement is rejected
    and one where it went through. *)
Ltac await :=
  match goal with
  | H : context [pool_query ?tag ?run ?w] |- _ =>
      let o := fresh "o" in
      let w1 := fresh "w" in
      let Hq := fresh "Hq" in
      let Hsent := fresh "Hsent" in
      let Hdb := fresh "Hdb" in
      destruct (pool_query tag run w) as [o w1] eqn:Hq;
      apply pool_query_inv in Hq as [Hsent [[-> Hdb] | [-> Hdb]]];
      cbn [exec_users exec_skills fst snd] in *
  end.

(** Run the next statement of the handler in the goal with a pool that is
    known to answer. *)
Ltac await_quiet :=
  match goal with
  | |- context [pool_query ?tag ?run ?w] =>
      rewrite (pool_query_quiet tag run w)
        by (cbn [faults]; auto using quiet_tail);
      cbn [exec_users exec_skills fst snd db sent faults]
  end.

(** ** Registration *)

(** The handler answered with a status other than the one that marks
    success, and the tables are as they were. *)
Ltac other_answer :=
  eexists; split; [reflexivity |]; right; split; [simpl; lia | congruence].

Section Registration.
Context {hasher : CredentialHasher}.

(** Every way a registration can end, whatever the pool does: either it
    answers 201 after both look-ups came back empty and the new row is
    appended, or it answers something else and the tables are as
    before. *)
Lemma register_inv salt req w o w' :
  register salt req w = (o, w') →
  ∃ resp, o = Resolved resp ∧
    ((resp = Response 201
               (Registered "User registered successfully"
                  (Some (new_user salt req (db w)))) ∧
      fields_given req = true ∧
      email_taken req (db w) = [] ∧ username_taken req (db w) = [] ∧
      db w' = Database (users (db w) ++ [new_user salt req (db w)])
                (users_id_seq (db w) + 1) (skills (db w)) (skills_id_seq (db w)))
     ∨ (status resp ≠ 201 ∧ db w' = db w)).
Proof.
  unfold register, fields_given, email_taken, username_taken.
  destruct (Js.not _ || Js.not _ || Js.not _) eqn:Hgiven.
  { unfold_async. intros [= <- <-]. other_answer. }
  unfold_async. intros Hrun. await; [simplify_eq; other_answer |].
  case_bool_decide as Hemail; [simplify_eq; other_answer |].
  await; [simplify_eq; other_answer |].
  case_bool_decide as Hname; [simplify_eq; other_answer |].
  await; [simplify_eq; other_answer |].
  simplify_eq. eexists; split; [done |]. left.
  rewrite Hdb1, Hdb0, Hdb in *.
  repeat split; try done.
  - destruct (filter _ (users (db w))) eqn:E; [done | simpl in Hemail; lia].
  - destruct (filter (λ r, User.username r = _) (users (db w))) eqn:E;
      [done | simpl in Hname; lia].
Qed.

End Registration.

Lemma fields_given_false (req : request) :
  fields_given req = false ↔
  missing (body req !! "username") ∨ missing (body req !! "email")
  ∨ missing (body req !! "password").
Proof.
  unfold fields_given, missing.
  rewrite negb_false_iff, !orb_true_iff, !js_not_true. tauto.
Qed.

Lemma filter_nonempty_length {A} (l : list A) :
  l ≠ [] ↔ bool_decide (0 < length l)%nat = true.
Proof.
  rewrite bool_decide_eq_true. destruct l; simpl; [split; [done | lia] |].
  split; [lia | done].
Qed.

Lemma filter_empty_length {A} (l : list A) :
  l = [] ↔ bool_decide (0 < length l)%nat = false.
Proof.
  rewrite bool_decide_eq_false. destruct l; simpl; [split; [lia | done] |].
  split; [done | lia].
Qed.

(** C3. Registration answers 400 when a field is missing, without asking
    the database; otherwise it looks the email up first and answers 400
    when it is taken, then looks the username up and answers 400 when it
    is taken, and only when both look-ups are empty inserts the row with
    the hashed password and answers 201 with that row.  A 201, like any
    change of the tables, occurs only after both checks passed. *)
Theorem register_validates_then_checks_email_then_username
    {hasher : CredentialHasher} (salt : string) (req : request) (w : world) :
  let by_email := OnUsers (SelectUsersByEmail (Js.text (body req !! "email"))) in
  let by_username :=
    OnUsers (SelectUsersByUsername (Js.text (body req !! "username"))) in
  let row := new_user salt req (db w) in
  let insert :=
    OnUsers (InsertUser (User.username row) (User.email row) (User.password row)) in
  (missing (body req !! "username") ∨ missing (body req !! "email")
   ∨ missing (body req !! "password") →
   register salt req w
   = (Resolved (Response 400
        (Error "Please provide all required fields (username, email, password)")),
      w))
  ∧ (fields_given req = true → quiet (faults w) = true →
     (email_taken req (db w) ≠ [] →
      register salt req w
      = (Resolved (Response 400 (Error "Email already exists")),
         World (db w) (sent w ++ [by_email]) (tail (faults w))))
     ∧ (email_taken req (db w) = [] → username_taken req (db w) ≠ [] →
        register salt req w
        = (Resolved (Response 400 (Error "Username already exists")),
           World (db w) (sent w ++ [by_email] ++ [by_username])
             (tail (tail (faults w)))))
     ∧ (email_taken req (db w) = [] → username_taken req (db w) = [] →
        register salt req w
        = (Resolved (Response 201
             (Registered "User registered successfully" (Some row))),
           World
             (Database (users (db w) ++ [row]) (users_id_seq (db w) + 1)
                (skills (db w)) (skills_id_seq (db w)))
             (sent w ++ [by_email] ++ [by_username] ++ [insert])
             (tail (tail (tail (faults w)))))))
  ∧ (∀ resp w', register salt req w = (Resolved resp, w') →
     status resp = 201 ∨ db w' ≠ db w →
     fields_given req = true ∧ email_taken req (db w) = []
     ∧ username_taken req (db w) = []).
Proof.
  intros by_email by_username row insert. split; [| split].
  - intros Hmiss. apply fields_given_false in Hmiss.
    unfold register, fields_given in *. apply negb_false_iff in Hmiss.
    by rewrite Hmiss.
  - intros Hgiven Hquiet. unfold fields_given in Hgiven.
    apply negb_true_iff in Hgiven.
    unfold register. rewrite Hgiven. unfold email_taken, username_taken.
    repeat split.
    + intros Htaken%filter_nonempty_length.
      unfold_async. await_quiet. by rewrite Htaken.
    + intros Hfree%filter_empty_length Htaken%filter_nonempty_length.
      unfold_async. await_quiet. rewrite Hfree.
      await_quiet. rewrite Htaken. by rewrite <- !(assoc_L (++)).
    + intros Hfree%filter_empty_length Hfree'%filter_empty_length.
      unfold_async. await_quiet. rewrite Hfree.
      await_quiet. rewrite Hfree'.
      await_quiet. by rewrite <- !(assoc_L (++)).
  - intros resp w' Hrun Hdone.
    destruct (register_inv _ _ _ _ _ Hrun) as (resp' & [= <-] & [Hok | [Hst Hdb]]).
    + tauto.
    + destruct Hdone as [Hst' | Hdb']; [by rewrite Hst' in Hst | done].
Qed.

Lemma register_validates_then_checks_email_then_username_witness :
  let req := post [("username", "alice"); ("email", "a@x.com"); ("password", "pw1")] in
  let row := User.Row 1 "alice" "a@x.com" (Reference.hash "pw1" 10 "s") in
  register (hasher := reference_hasher) "s" req boot
  = (Resolved (Response 201 (Registered "User registered successfully" (Some row))),
     World (Database [row] 1 [] 0)
       [OnUsers (SelectUsersByEmail "a@x.com");
        OnUsers (SelectUsersByUsername "alice");
        OnUsers (InsertUser "alice" "a@x.com" (Reference.hash "pw1" 10 "s"))] []).
Proof.
  intros req row.
  exact (proj2 (proj2 (proj1 (proj2
    (register_validates_then_checks_email_then_username
       (hasher := reference_hasher) "s" req boot))
    eq_refl eq_refl)) eq_refl eq_refl).
Defined.

(** ** Login *)

Section Login.
Context {tokens : TokenService} {hasher : CredentialHasher}.

Lemma login_quiet now req w :
  Js.not (body req !! "email") || Js.not (body req !! "password") = false →
  quiet (faults w) = true →
  login now req w
  = (Resolved (login_answer now req (db w)),
     World (db w)
       (sent w ++ [OnUsers (SelectUsersByEmail (Js.text (body req !! "email")))])
       (tail (faults w))).
Proof.
  intros Hgiven Hquiet. unfold login, login_answer, login_found, login_token.
  rewrite Hgiven. unfold_async. await_quiet.
  destruct (head _) as [user |]; [| done].
  by destruct (bcrypt_compare _ _).
Qed.

(** A login never changes the tables, whatever the pool does. *)
Lemma login_inv now req w o w' :
  login now req w = (o, w') → (∃ resp, o = Resolved resp) ∧ db w' = db w.
Proof.
  unfold login. destruct (Js.not _ || Js.not _).
  { unfold_async. intros [= <- <-]. eauto. }
  unfold_async. intros Hrun. await; [simplify_eq; eauto |].
  destruct (head _) as [user |]; [| simplify_eq; eauto].
  destruct (negb _); simplify_eq; eauto.
Qed.

End Login.

Lemma missing_not (v : Js.value) : ¬ missing v ↔ Js.not v = false.
Proof.
  unfold missing. rewrite <- js_not_true. by destruct (Js.not v).
Qed.

(** C4. Login answers 400 when the email or the password is missing,
    without asking the database; with both given it looks the email up and
    answers 404 when no row has it, whatever the password; and when a row
    has it and the submitted password does not verify against the stored
    hash it answers 401. *)
Theorem login_checks_in_order {tokens : TokenService} {hasher : CredentialHasher}
    (now : Z) (req : request) (w : world) :
  let email := body req !! "email" in
  let password := body req !! "password" in
  let asked :=
    World (db w) (sent w ++ [OnUsers (SelectUsersByEmail (Js.text email))])
      (tail (faults w)) in
  (missing email ∨ missing password →
   login now req w
   = (Resolved (Response 400 (Error "Please provide both email and password")), w))
  ∧ (¬ missing email → ¬ missing password → quiet (faults w) = true →
     (login_found req (db w) = [] →
      login now req w = (Resolved (Response 404 (Error "User not found")), asked))
     ∧ (∀ user rest, login_found req (db w) = user :: rest →
        bcrypt_compare (Js.text password) (User.password user) = false →
        login now req w
        = (Resolved (Response 401 (Error "Incorrect password")), asked))).
Proof.
  intros email password asked. split.
  - unfold missing. rewrite <- !js_not_true.
    intros Hmiss. unfold login.
    assert (Js.not (body req !! "email") || Js.not (body req !! "password") = true)
      as -> by (apply orb_true_iff; exact Hmiss).
    done.
  - intros He%missing_not Hp%missing_not Hquiet.
    assert (Js.not (body req !! "email") || Js.not (body req !! "password") = false)
      as Hgiven by (subst email password; by rewrite He, Hp).
    rewrite (login_quiet _ _ _ Hgiven Hquiet). unfold login_answer. split.
    + by intros ->.
    + intros user rest -> Hcmp. simpl. subst password. by rewrite Hcmp.
Qed.

Lemma login_checks_in_order_witness :
  let hashed := Reference.hash "pw1" 10 "s" in
  let w := World (Database [User.Row 1 "alice" "a@x.com" hashed] 1 [] 0) [] [] in
  login (tokens := reference_tokens) (hasher := reference_hasher)
    1000 (post [("email", "a@x.com"); ("password", "guess")]) w
  = (Resolved (Response 401 (Error "Incorrect password")),
     World (db w) [OnUsers (SelectUsersByEmail "a@x.com")] []).
Proof.
  intros hashed w.
  refine (proj2 (proj2
    (login_checks_in_order
       (tokens := reference_tokens) (hasher := reference_hasher)
       1000 (post [("email", "a@x.com"); ("password", "guess")]) w)
    _ _ eq_refl) (User.Row 1 "alice" "a@x.com" hashed) [] eq_refl eq_refl).
  - intros [Hm | Hm]; vm_compute in Hm; discriminate Hm.
  - intros [Hm | Hm]; vm_compute in Hm; discriminate Hm.
Defined.

(** ** The authentication middleware *)

Section Middleware.
Context {tokens : TokenService}.

Lemma bearer_token_empty (header : string) :
  bearer_token header = "" ↔ header = "" ∨ header = "Bearer ".
Proof. by apply replace_empty_iff. Qed.

Lemma authenticate_missing now next req w :
  authorization req = None ∨ authorization req = Some ""
  ∨ authorization req = Some "Bearer " →
  authenticate now next req w
  = (Resolved (Response 401 (Error "Access denied, token missing")), w).
Proof.
  intros [Hh | [Hh | Hh]]; unfold authenticate; rewrite Hh; done.
Qed.

Lemma authenticate_refused now next req w header e :
  authorization req = Some header →
  header ≠ "" → header ≠ "Bearer " →
  jwt_verify (bearer_token header) secret now = inl e →
  authenticate now next req w
  = (Resolved (Response 400 (Error "Invalid token")), w).
Proof.
  intros Hh Hne Hne' Hver. unfold authenticate. rewrite Hh. simpl.
  fold (bearer_token header). rewrite bool_decide_eq_false_2.
  - by rewrite Hver.
  - rewrite bearer_token_empty. tauto.
Qed.

Lemma authenticate_verified now next req w decoded :
  verified now req decoded →
  authenticate now next req w = next (with_user req decoded) w.
Proof.
  intros (header & Hh & Hver). unfold authenticate. rewrite Hh. simpl.
  fold (bearer_token header).
  case_bool_decide as Hempty.
  - rewrite Hempty, jwt_verify_empty in Hver. discriminate Hver.
  - by rewrite Hver.
Qed.

(** The middleware itself never touches the world: whatever happens to
    the tables happens in the handler it lets through. *)
Lemma authenticate_inv now next req w o w' :
  authenticate now next req w = (o, w') →
  (∃ resp, o = Resolved resp ∧ w' = w ∧ (status resp = 401 ∨ status resp = 400))
  ∨ (∃ decoded, verified now req decoded ∧ next (with_user req decoded) w = (o, w')).
Proof.
  unfold authenticate, verified.
  destruct (authorization req) as [header |]; simpl.
  - fold (bearer_token header). case_bool_decide as Hempty.
    + intros [= <- <-]. left. eauto.
    + destruct (jwt_verify _ _ _) as [e | decoded] eqn:Hver.
      * intros [= <- <-]. left. eauto.
      * intros Hnext. right. eauto.
  - intros [= <- <-]. left. eauto.
Qed.

End Middleware.

(** C2, as the code has it. The middleware answers 401 when the
    Authorization header is absent, empty or exactly the bearer prefix,
    that is when nothing is left once the first ["Bearer "] is removed.
    Every other header, with or without the prefix, is handed to verify
    with its first ["Bearer "] removed: a failure is answered 400, and on
    success the decoded claims are attached to the request and the handler
    runs.  Of [Bearer <token>] the token is what is verified. *)
Theorem authenticate_gate {tokens : TokenService}
    (now : Z) (next : request → Async response) (req : request) (w : world) :
  (authorization req = None ∨ authorization req = Some ""
   ∨ authorization req = Some "Bearer " →
   authenticate now next req w
   = (Resolved (Response 401 (Error "Access denied, token missing")), w))
  ∧ (∀ header, authorization req = Some header →
     header ≠ "" → header ≠ "Bearer " →
     (∀ e, jwt_verify (bearer_token header) secret now = inl e →
      authenticate now next req w
      = (Resolved (Response 400 (Error "Invalid token")), w))
     ∧ (∀ decoded, jwt_verify (bearer_token header) secret now = inr decoded →
        user (with_user req decoded) = Some decoded
        ∧ authenticate now next req w = next (with_user req decoded) w))
  ∧ (∀ token, bearer_token ("Bearer " +:+ token) = token).
Proof.
  split; [| split].
  - apply authenticate_missing.
  - intros header Hh Hne Hne'. split.
    + intros e. by apply authenticate_refused.
    + intros decoded Hver. split; [done |].
      apply authenticate_verified. by exists header.
  - intros token. apply replace_prefix.
Qed.

Lemma authenticate_gate_witness :
  let token :=
    jwt_sign (TokenService := reference_tokens)
      (Jwt.Claims 1 "alice" "a@x.com") secret one_hour 1000 in
  let req := bearer token [] 0 in
  let decoded := Jwt.Payload (Jwt.Claims 1 "alice" "a@x.com") 1000 4600 in
  authenticate (tokens := reference_tokens) 1500 get_skills req boot
  = get_skills (Request (authorization req) ∅ 0 (Some decoded)) boot.
Proof.
  intros token req decoded.
  refine (proj2 (proj2 (proj1 (proj2
    (authenticate_gate (tokens := reference_tokens) 1500 get_skills req boot))
    _ eq_refl _ _) decoded _)).
  - discriminate.
  - discriminate.
  - vm_compute. reflexivity.
Defined.

(** C2, as the spec words it, fails: a header that does not carry the
    bearer prefix is not answered 401; it is verified as it stands and the
    failure is answered 400. *)
Lemma authenticate_no_bearer_prefix_is_verified :
  let req := Request (Some "Token abc") ∅ 0 None in
  String.prefix "Bearer " "Token abc" = false
  ∧ authenticate (tokens := reference_tokens) 1000 get_users req boot
    = (Resolved (Response 400 (Error "Invalid token")), boot).
Proof. split; vm_compute; reflexivity. Qed.

(** ** Skills *)

Section SkillRoutes.

Lemma skill_fields_given_true (req : request) :
  skill_fields_given req = true ↔
  ¬ missing (body req !! "skill_name") ∧ ¬ missing (body req !! "proficiency").
Proof.
  unfold skill_fields_given.
  rewrite negb_true_iff, orb_false_iff, !missing_not. tauto.
Qed.

Lemma skill_fields_given_false (req : request) :
  skill_fields_given req = false ↔
  missing (body req !! "skill_name") ∨ missing (body req !! "proficiency").
Proof.
  unfold skill_fields_given, missing.
  rewrite negb_false_iff, orb_true_iff, !js_not_true. tauto.
Qed.

Lemma get_skills_quiet req w decoded :
  user req = Some decoded → quiet (faults w) = true →
  let caller := Jwt.userId (Jwt.identity decoded) in
  get_skills req w
  = (Resolved (Response 200
       (Skills (filter (λ r, Skill.user_id r = caller) (skills (db w))))),
     World (db w) (sent w ++ [OnSkills (SelectSkillsByUser caller)])
       (tail (faults w))).
Proof.
  intros Hu Hquiet caller. unfold get_skills, req_user_userId. rewrite Hu.
  unfold_async. by await_quiet.
Qed.

Lemma post_skills_missing req w :
  skill_fields_given req = false →
  post_skills req w
  = (Resolved (Response 400
       (Error "Please provide both skill name and proficiency")), w).
Proof.
  unfold skill_fields_given, post_skills. intros Hm%negb_false_iff.
  by rewrite Hm.
Qed.

Lemma post_skills_quiet req w decoded :
  user req = Some decoded → skill_fields_given req = true →
  quiet (faults w) = true →
  let row := new_skill req (Jwt.userId (Jwt.identity decoded)) (db w) in
  post_skills req w
  = (Resolved (Response 201 (SkillSaved "Skill added successfully" (Some row))),
     World
       (Database (users (db w)) (users_id_seq (db w)) (skills (db w) ++ [row])
          (skills_id_seq (db w) + 1))
       (sent w ++ [OnSkills (InsertSkill (Skill.user_id row) (Skill.skill_name row)
                               (Skill.proficiency row))])
       (tail (faults w))).
Proof.
  intros Hu Hgiven%negb_true_iff Hquiet row.
  unfold post_skills, req_user_userId. rewrite Hgiven, Hu.
  unfold_async. by await_quiet.
Qed.

Lemma put_skill_missing req w :
  skill_fields_given req = false →
  put_skill req w
  = (Resolved (Response 400
       (Error "Please provide both skill name and proficiency")), w).
Proof.
  unfold skill_fields_given, put_skill. intros Hm%negb_false_iff.
  by rewrite Hm.
Qed.

Lemma put_skill_quiet req w :
  skill_fields_given req = true → quiet (faults w) = true →
  let hits := skill_hits (params_id req) (db w) in
  let name := Js.text (body req !! "skill_name") in
  let level := Js.text (body req !! "proficiency") in
  put_skill req w
  = (Resolved
       (match hits with
        | [] => Response 404 (Error "Skill not found")
        | r :: _ =>
            Response 200
              (SkillSaved "Skill updated successfully" (Some (set_skill name level r)))
        end),
     World
       (Database (users (db w)) (users_id_seq (db w)) (updated_skills req (db w))
          (skills_id_seq (db w)))
       (sent w ++ [OnSkills (UpdateSkill name level (params_id req))])
       (tail (faults w))).
Proof.
  intros Hgiven%negb_true_iff Hquiet hits name level.
  unfold put_skill. rewrite Hgiven. unfold_async. await_quiet.
  fold (skill_hits (params_id req) (db w)). fold hits.
  by destruct hits.
Qed.

Lemma delete_skill_quiet req w :
  quiet (faults w) = true →
  let hits := skill_hits (params_id req) (db w) in
  delete_skill req w
  = (Resolved
       (match hits with
        | [] => Response 404 (Error "Skill not found")
        | _ :: _ => Response 200 (Message "Skill deleted successfully")
        end),
     World
       (Database (users (db w)) (users_id_seq (db w))
          (filter (λ r, Skill.id r ≠ params_id req) (skills (db w)))
          (skills_id_seq (db w)))
       (sent w ++ [OnSkills (DeleteSkill (params_id req))])
       (tail (faults w))).
Proof.
  intros Hquiet hits. unfold delete_skill. unfold_async. await_quiet.
  fold (skill_hits (params_id req) (db w)). fold hits.
  by destruct hits.
Qed.

(** A statement on an id that no row has leaves the table as it is. *)
Lemma updated_skills_none req d :
  skill_hits (params_id req) d = [] → updated_skills req d = skills d.
Proof.
  unfold skill_hits, updated_skills. induction (skills d) as [| r l IH]; [done |].
  rewrite filter_cons. case_decide as Hid; [done |].
  intros Hl. rewrite fmap_cons. rewrite decide_False by done. by rewrite IH.
Qed.

Lemma deleted_skills_none (i : Z) d :
  skill_hits i d = [] → filter (λ r, Skill.id r ≠ i) (skills d) = skills d.
Proof.
  unfold skill_hits. induction (skills d) as [| r l IH]; [done |].
  rewrite !filter_cons. case_decide as Hid; [done |].
  intros Hl. rewrite decide_True by done. by rewrite IH.
Qed.

(** After the delete no row has the id. *)
Lemma deleted_skills_hits (i : Z) (l : list Skill.row) :
  filter (λ r, Skill.id r = i) (filter (λ r, Skill.id r ≠ i) l) = [].
Proof.
  induction l as [| r l IH]; [done |].
  rewrite filter_cons. case_decide as Hid; [| done].
  rewrite filter_cons. by rewrite decide_False.
Qed.

Lemma database_eta d :
  Database (users d) (users_id_seq d) (skills d) (skills_id_seq d) = d.
Proof. by destruct d. Qed.

End SkillRoutes.

Lemma verified_with_field {tokens : TokenService} now req decoded k v :
  verified now req decoded → verified now (with_field k v req) decoded.
Proof. intros (header & Hh & Hver). by exists header. Qed.

(** C6. An authenticated add-skill request with both fields given inserts
    a row whose user_id is the userId of the caller's verified token and
    answers 201 with that row; no other field of the body has a say in it;
    with a field missing the answer is 400. *)
Theorem post_skills_owner_is_the_caller {tokens : TokenService}
    (now : Z) (req : request) (decoded : Jwt.payload) (w : world) :
  verified now req decoded →
  let caller := Jwt.userId (Jwt.identity decoded) in
  let row := new_skill req caller (db w) in
  (missing (body req !! "skill_name") ∨ missing (body req !! "proficiency") →
   authenticate now post_skills req w
   = (Resolved (Response 400
        (Error "Please provide both skill name and proficiency")), w))
  ∧ (¬ missing (body req !! "skill_name") →
     ¬ missing (body req !! "proficiency") →
     quiet (faults w) = true →
     Skill.user_id row = caller
     ∧ authenticate now post_skills req w
       = (Resolved (Response 201 (SkillSaved "Skill added successfully" (Some row))),
          World
            (Database (users (db w)) (users_id_seq (db w)) (skills (db w) ++ [row])
               (skills_id_seq (db w) + 1))
            (sent w ++ [OnSkills (InsertSkill caller (Skill.skill_name row)
                                    (Skill.proficiency row))])
            (tail (faults w)))
     ∧ ∀ k v, k ≠ "skill_name" → k ≠ "proficiency" →
         authenticate now post_skills (with_field k v req) w
         = authenticate now post_skills req w).
Proof.
  intros Hver caller row. rewrite (authenticate_verified _ _ _ _ _ Hver). split.
  - intros Hm%skill_fields_given_false. by apply post_skills_missing.
  - intros Hn Hp Hquiet.
    assert (skill_fields_given req = true) as Hgiven
      by (by apply skill_fields_given_true).
    split; [done |]. split.
    + by rewrite (post_skills_quiet _ _ decoded).
    + intros k v Hk Hk'.
      rewrite (authenticate_verified _ _ _ _ decoded)
        by by apply verified_with_field.
      rewrite !(post_skills_quiet _ _ decoded); try done.
      * unfold new_skill. simpl. by rewrite !lookup_insert_ne.
      * unfold skill_fields_given. simpl. by rewrite !lookup_insert_ne.
Qed.

Lemma post_skills_owner_is_the_caller_witness :
  let token :=
    jwt_sign (TokenService := reference_tokens)
      (Jwt.Claims 7 "alice" "a@x.com") secret one_hour 1000 in
  let req := bearer token [("skill_name", "Go"); ("proficiency", "expert")] 0 in
  authenticate (tokens := reference_tokens) 1500 post_skills
    (with_field "user_id" "99" req) boot
  = authenticate (tokens := reference_tokens) 1500 post_skills req boot.
Proof.
  intros token req.
  refine (proj2 (proj2 (proj2
    (post_skills_owner_is_the_caller (tokens := reference_tokens) 1500 req
       (Jwt.Payload (Jwt.Claims 7 "alice" "a@x.com") 1000 4600) boot _)
    _ _ eq_refl)) "user_id" "99" _ _).
  - exists ("Bearer " +:+ token). split; vm_compute; reflexivity.
  - intros [Hm | Hm]; vm_compute in Hm; discriminate Hm.
  - intros [Hm | Hm]; vm_compute in Hm; discriminate Hm.
  - discriminate.
  - discriminate.
Defined.

(** C7. Update and delete look at the id alone: for any authenticated
    caller and any row that has the id of the request, whoever owns it,
    the update (with both fields given) answers 200 with the row as it now
    is, which is the row found with the submitted skill_name and
    proficiency in place of its own, stores it, leaves every row of the id
    with the submitted fields and the rows of other ids as they were; the
    delete removes the row and answers 200; when no row has the id both
    answer 404 and the table is as before. *)
Theorem update_and_delete_check_no_owner {tokens : TokenService}
    (now : Z) (req : request) (decoded : Jwt.payload) (w : world) :
  verified now req decoded →
  quiet (faults w) = true →
  let name := Js.text (body req !! "skill_name") in
  let level := Js.text (body req !! "proficiency") in
  (∀ r rest, skill_hits (params_id req) (db w) = r :: rest →
     (skill_fields_given req = true →
      let written := Skill.Row (Skill.id r) (Skill.user_id r) name level in
      ∃ w', authenticate now put_skill req w
            = (Resolved (Response 200
                 (SkillSaved "Skill updated successfully" (Some written))), w')
            ∧ skills (db w') = updated_skills req (db w)
            ∧ written ∈ skills (db w')
            ∧ Skill.user_id written = Skill.user_id r
            ∧ (∀ r', r' ∈ skills (db w') → Skill.id r' = params_id req →
                 Skill.skill_name r' = name ∧ Skill.proficiency r' = level)
            ∧ (∀ r', Skill.id r' ≠ params_id req →
                 r' ∈ skills (db w') ↔ r' ∈ skills (db w))
            ∧ length (skills (db w')) = length (skills (db w)))
     ∧ (∃ w', authenticate now delete_skill req w
              = (Resolved (Response 200 (Message "Skill deleted successfully")), w')
              ∧ skills (db w')
                = filter (λ r, Skill.id r ≠ params_id req) (skills (db w))
              ∧ r ∉ skills (db w')))
  ∧ (skill_hits (params_id req) (db w) = [] →
     (skill_fields_given req = true →
      ∃ w', authenticate now put_skill req w
            = (Resolved (Response 404 (Error "Skill not found")), w')
            ∧ db w' = db w)
     ∧ (∃ w', authenticate now delete_skill req w
              = (Resolved (Response 404 (Error "Skill not found")), w')
              ∧ db w' = db w)).
Proof.
  intros Hver Hquiet name level.
  rewrite !(authenticate_verified _ _ _ _ _ Hver).
  change (params_id req) with (params_id (with_user req decoded)).
  split.
  - intros r rest Hhits.
    assert (Skill.id r = params_id req ∧ r ∈ skills (db w)) as [Hid Hin].
    { apply (list_elem_of_filter (λ r, Skill.id r = params_id req)).
      fold (skill_hits (params_id req) (db w)).
      change (params_id req) with (params_id (with_user req decoded)).
      rewrite Hhits. left. }
    split.
    + intros Hgiven written. eexists. rewrite put_skill_quiet by done.
      rewrite Hhits. split; [done |]. cbn [db skills]. split; [done |].
      unfold updated_skills. cbn [params_id with_user body].
      split; [| split; [done | split; [| split]]].
      * apply list_elem_of_fmap. exists r. by rewrite decide_True.
      * intros r' (r0 & -> & _)%list_elem_of_fmap.
        destruct (decide (Skill.id r0 = params_id req)); [done | tauto].
      * intros r' Hother. rewrite list_elem_of_fmap. split.
        -- intros (r0 & -> & Hr0).
           destruct (decide (Skill.id r0 = params_id req)) as [Heq |]; [| done].
           by cbn [Skill.id set_skill] in Hother.
        -- intros Hr'. exists r'. by rewrite decide_False.
      * apply length_fmap.
    + eexists. rewrite delete_skill_quiet by done.
      rewrite Hhits. split; [done |]. cbn [db skills]. split; [done |].
      rewrite list_elem_of_filter. cbn [params_id with_user]. tauto.
  - intros Hnone. split.
    + intros Hgiven. eexists. rewrite put_skill_quiet by done.
      rewrite Hnone. split; [done |]. cbn [db].
      rewrite updated_skills_none by done. apply database_eta.
    + eexists. rewrite delete_skill_quiet by done.
      rewrite Hnone. split; [done |]. cbn [db].
      rewrite deleted_skills_none by done. apply database_eta.
Qed.

Lemma update_and_delete_check_no_owner_witness :
  let token :=
    jwt_sign (TokenService := reference_tokens)
      (Jwt.Claims 1 "alice" "a@x.com") secret one_hour 1000 in
  let bobs := Skill.Row 5 2 "Go" "novice" in
  let w := World (Database [] 2 [bobs] 5) [] [] in
  let req := bearer token [("skill_name", "Rust"); ("proficiency", "expert")] 5 in
  (∃ w', authenticate (tokens := reference_tokens) 1500 put_skill req w
         = (Resolved (Response 200
              (SkillSaved "Skill updated successfully"
                 (Some (Skill.Row 5 2 "Rust" "expert")))), w')
         ∧ Skill.Row 5 2 "Rust" "expert" ∈ skills (db w'))
  ∧ (∃ w', authenticate (tokens := reference_tokens) 1500 delete_skill req w
           = (Resolved (Response 200 (Message "Skill deleted successfully")), w')
           ∧ bobs ∉ skills (db w')).
Proof.
  intros token bobs w req.
  destruct (proj1
    (update_and_delete_check_no_owner (tokens := reference_tokens) 1500 req
       (Jwt.Payload (Jwt.Claims 1 "alice" "a@x.com") 1000 4600) w
       (ex_intro _ ("Bearer " +:+ token) (conj eq_refl eq_refl)) eq_refl)
    bobs [] eq_refl) as [Hput Hdelete].
  split.
  - destruct (Hput eq_refl) as (w' & Hrun & _ & Hin & _). by exists w'.
  - destruct Hdelete as (w' & Hrun & _ & Hout). by exists w'.
Defined.

(** C8. Once the delete of an id that a row has answered 200, a listing
    that follows, by the owner of the row or by any other caller, holds no
    row with that id, and a second delete of the id answers 404; update
    and delete of an id that no row has answer 404. *)
Theorem delete_removes_the_skill {tokens : TokenService}
    (now : Z) (req : request) (decoded : Jwt.payload) (w : world) :
  verified now req decoded →
  quiet (faults w) = true →
  let i := params_id req in
  (skill_hits i (db w) ≠ [] →
   ∃ w1, authenticate now delete_skill req w
         = (Resolved (Response 200 (Message "Skill deleted successfully")), w1)
     ∧ (∀ now' listing who w2,
          db w2 = db w1 → quiet (faults w2) = true → verified now' listing who →
          ∃ rows w3,
            authenticate now' get_skills listing w2
            = (Resolved (Response 200 (Skills rows)), w3)
            ∧ rows = filter (λ r, Skill.user_id r = Jwt.userId (Jwt.identity who))
                       (skills (db w1))
            ∧ ∀ r, r ∈ rows → Skill.id r ≠ i)
     ∧ (∀ now' again who w2,
          db w2 = db w1 → quiet (faults w2) = true → verified now' again who →
          params_id again = i →
          ∃ w3, authenticate now' delete_skill again w2
                = (Resolved (Response 404 (Error "Skill not found")), w3)
                ∧ db w3 = db w2))
  ∧ (skill_hits i (db w) = [] →
     (∃ w', authenticate now delete_skill req w
            = (Resolved (Response 404 (Error "Skill not found")), w')
            ∧ db w' = db w)
     ∧ (skill_fields_given req = true →
        ∃ w', authenticate now put_skill req w
              = (Resolved (Response 404 (Error "Skill not found")), w')
              ∧ db w' = db w)).
Proof.
  intros Hver Hquiet i. rewrite !(authenticate_verified _ _ _ _ _ Hver).
  split.
  - intros Hhits. eexists. rewrite delete_skill_quiet by done.
    cbn [params_id with_user]. fold i.
    destruct (skill_hits i (db w)) as [| r rest] eqn:Hr; [done |].
    split; [done |]. cbn [db skills]. split.
    + intros now' listing who w2 Hdb Hquiet' Hwho.
      rewrite (authenticate_verified _ _ _ _ _ Hwho).
      rewrite (get_skills_quiet _ _ who) by done.
      eexists _, _. split; [done |]. rewrite Hdb. cbn [skills].
      split; [done |].
      intros r' Hin. apply list_elem_of_filter in Hin as [_ Hin].
      by apply list_elem_of_filter in Hin as [Hne _].
    + intros now' again who w2 Hdb Hquiet' Hwho Hid.
      rewrite (authenticate_verified _ _ _ _ _ Hwho).
      eexists. rewrite delete_skill_quiet by done.
      cbn [params_id with_user]. rewrite Hid.
      assert (skill_hits i (db w2) = []) as Hgone.
      { unfold skill_hits. rewrite Hdb. cbn [skills].
        apply deleted_skills_hits. }
      rewrite Hgone. split; [done |]. cbn [db].
      rewrite deleted_skills_none by done. apply database_eta.
  - intros Hnone. split.
    + eexists. rewrite delete_skill_quiet by done.
      cbn [params_id with_user]. fold i. rewrite Hnone. split; [done |].
      cbn [db]. rewrite deleted_skills_none by done. apply database_eta.
    + intros Hgiven. eexists. rewrite put_skill_quiet by done.
      cbn [params_id with_user]. fold i. rewrite Hnone. split; [done |].
      cbn [db]. rewrite updated_skills_none by done. apply database_eta.
Qed.

Lemma delete_removes_the_skill_witness :
  let token :=
    jwt_sign (TokenService := reference_tokens)
      (Jwt.Claims 1 "alice" "a@x.com") secret one_hour 1000 in
  let mine := Skill.Row 5 1 "Go" "novice" in
  let w := World (Database [] 1 [mine] 5) [] [] in
  ∃ w1, authenticate (tokens := reference_tokens) 1500 delete_skill
          (bearer token [] 5) w
        = (Resolved (Response 200 (Message "Skill deleted successfully")), w1).
Proof.
  intros token mine w.
  destruct (proj1
    (delete_removes_the_skill (tokens := reference_tokens) 1500
       (bearer token [] 5)
       (Jwt.Payload (Jwt.Claims 1 "alice" "a@x.com") 1000 4600) w
       (ex_intro _ ("Bearer " +:+ token) (conj eq_refl eq_refl)) eq_refl)
    ltac:(discriminate)) as (w1 & Hdel & _).
  by exists w1.
Defined.

(** ** Empty fields *)

Lemma register_missing {hasher : CredentialHasher} salt req w :
  fields_given req = false →
  register salt req w
  = (Resolved (Response 400
       (Error "Please provide all required fields (username, email, password)")),
     w).
Proof.
  unfold fields_given, register. intros Hm%negb_false_iff. by rewrite Hm.
Qed.

Lemma fields_given_empty (k : string) (req : request) :
  k ∈ ["username"; "email"; "password"] →
  body req !! k = Some "" ∨ body req !! k = None →
  fields_given req = false.
Proof.
  intros Hk He. apply fields_given_false. unfold missing.
  repeat (apply elem_of_cons in Hk as [-> | Hk]; [tauto |]).
  by apply elem_of_nil in Hk.
Qed.

Lemma skill_fields_given_empty (k : string) (req : request) :
  k ∈ ["skill_name"; "proficiency"] →
  body req !! k = Some "" ∨ body req !! k = None →
  skill_fields_given req = false.
Proof.
  intros Hk He. apply skill_fields_given_false. unfold missing.
  repeat (apply elem_of_cons in Hk as [-> | Hk]; [tauto |]).
  by apply elem_of_nil in Hk.
Qed.

(** C10. A required field that is present with the empty string counts as
    a missing one: registration, add-skill and update-skill answer 400 and
    hand back the world as it was, so no statement has been sent to the
    pool, and the outcome is that of the same request without the field.
    For the two protected routes this is the handler's answer, which is
    the route's answer once the caller is authenticated. *)
Theorem empty_field_is_a_missing_field
    {tokens : TokenService} {hasher : CredentialHasher}
    (salt : string) (now : Z) (req : request) (w : world) :
  let refused_fields :=
    (Resolved (Response 400
       (Error "Please provide all required fields (username, email, password)")),
     w) in
  let refused_skill :=
    (Resolved (Response 400
       (Error "Please provide both skill name and proficiency")), w) in
  (∀ k, k ∈ ["username"; "email"; "password"] → body req !! k = Some "" →
     register salt req w = refused_fields
     ∧ register salt (without_field k req) w = register salt req w)
  ∧ (∀ k, k ∈ ["skill_name"; "proficiency"] → body req !! k = Some "" →
       post_skills req w = refused_skill
       ∧ put_skill req w = refused_skill
       ∧ post_skills (without_field k req) w = post_skills req w
       ∧ put_skill (without_field k req) w = put_skill req w
       ∧ ∀ decoded, verified now req decoded →
           authenticate now post_skills req w = refused_skill
           ∧ authenticate now put_skill req w = refused_skill).
Proof.
  intros refused_fields refused_skill. split.
  - intros k Hk He.
    assert (fields_given req = false) as Hreq
      by (apply (fields_given_empty k); [done |]; by left).
    assert (fields_given (without_field k req) = false) as Hreq'
      by (apply (fields_given_empty k); [done |]; right; apply lookup_delete_eq).
    by rewrite !register_missing.
  - intros k Hk He.
    assert (skill_fields_given req = false) as Hreq
      by (apply (skill_fields_given_empty k); [done |]; by left).
    assert (skill_fields_given (without_field k req) = false) as Hreq'
      by (apply (skill_fields_given_empty k); [done |]; right; apply lookup_delete_eq).
    rewrite !post_skills_missing, !put_skill_missing by done.
    repeat split; try done.
    + rewrite (authenticate_verified _ _ _ _ decoded) by done.
      by apply post_skills_missing.
    + rewrite (authenticate_verified _ _ _ _ decoded) by done.
      by apply put_skill_missing.
Qed.

Lemma empty_field_is_a_missing_field_witness :
  let req := post [("username", "alice"); ("email", ""); ("password", "pw1")] in
  register (hasher := reference_hasher) "s" req boot
  = (Resolved (Response 400
       (Error "Please provide all required fields (username, email, password)")),
     boot).
Proof.
  intros req.
  refine (proj1 (proj1
    (empty_field_is_a_missing_field
       (tokens := reference_tokens) (hasher := reference_hasher)
       "s" 1000 req boot) "email" _ eq_refl)).
  right. left.
Defined.

(** ** What a request can do to the users table *)

Section UsersTable.
Context {tokens : TokenService} {hasher : CredentialHasher}.

Ltac keeps_users_by_cases :=
  repeat first
    [ progress simplify_eq
    | await
    | match goal with
      | H : context [if ?b then _ else _] |- _ => destruct b
      | H : context [match user ?r with _ => _ end] |- _ => destruct (user r)
      end ];
  repeat match goal with
         | H : db _ = _ |- _ => rewrite H; clear H; cbn [users]
         end;
  done.

Lemma root_keeps_users : keeps_users root.
Proof. intros req w o w'. unfold root. unfold_async. by intros [= _ <-]. Qed.

Lemma get_users_keeps_users : keeps_users get_users.
Proof.
  intros req w o w'. unfold get_users. unfold_async. intros Hrun.
  keeps_users_by_cases.
Qed.

Lemma login_keeps_users now : keeps_users (login now).
Proof. intros req w o w' Hrun. apply login_inv in Hrun as [_ ->]. done. Qed.

Lemma get_skills_keeps_users : keeps_users get_skills.
Proof.
  intros req w o w'. unfold get_skills, req_user_userId. unfold_async.
  intros Hrun. keeps_users_by_cases.
Qed.

Lemma post_skills_keeps_users : keeps_users post_skills.
Proof.
  intros req w o w'. unfold post_skills, req_user_userId. unfold_async.
  intros Hrun. keeps_users_by_cases.
Qed.

Lemma put_skill_keeps_users : keeps_users put_skill.
Proof.
  intros req w o w'. unfold put_skill. unfold_async.
  intros Hrun. keeps_users_by_cases.
Qed.

Lemma delete_skill_keeps_users : keeps_users delete_skill.
Proof.
  intros req w o w'. unfold delete_skill. unfold_async.
  intros Hrun. keeps_users_by_cases.
Qed.

Lemma authenticate_keeps_users now next :
  keeps_users next → keeps_users (authenticate now next).
Proof.
  intros Hnext req w o w' Hrun.
  apply authenticate_inv in Hrun as [(resp & _ & -> & _) | (decoded & _ & Hrun)];
    [done |].
  by apply Hnext in Hrun.
Qed.

(** Every route but registration keeps the users table; a registration
    either keeps it or appends the one row it answers with, and it appends
    only when no row had the email or the username. *)
Lemma app_users rt env req w o w' :
  app rt env req w = (o, w') →
  users (db w') = users (db w)
  ∨ (rt = POST_register
     ∧ o = Resolved (Response 201
                       (Registered "User registered successfully"
                          (Some (new_user (drawn_salt env) req (db w)))))
     ∧ fields_given req = true
     ∧ email_taken req (db w) = [] ∧ username_taken req (db w) = []
     ∧ users (db w') = users (db w) ++ [new_user (drawn_salt env) req (db w)]).
Proof.
  destruct rt; simpl; intros Hrun.
  - left. by apply root_keeps_users in Hrun.
  - left. by apply (authenticate_keeps_users _ _ get_users_keeps_users) in Hrun.
  - apply register_inv in Hrun as (resp & -> & [(-> & ? & ? & ? & Hdb) | [_ Hdb]]).
    + right. rewrite Hdb. by repeat split.
    + left. by rewrite Hdb.
  - left. by apply login_keeps_users in Hrun.
  - left. by apply (authenticate_keeps_users _ _ get_skills_keeps_users) in Hrun.
  - left. by apply (authenticate_keeps_users _ _ post_skills_keeps_users) in Hrun.
  - left. by apply (authenticate_keeps_users _ _ put_skill_keeps_users) in Hrun.
  - left. by apply (authenticate_keeps_users _ _ delete_skill_keeps_users) in Hrun.
Qed.

Lemma serve_users rt env req w :
  let w' := (serve rt env req w).2 in
  users (db w') = users (db w)
  ∨ (rt = POST_register
     ∧ (serve rt env req w).1
       = Some (Response 201
                 (Registered "User registered successfully"
                    (Some (new_user (drawn_salt env) req (db w)))))
     ∧ fields_given req = true
     ∧ email_taken req (db w) = [] ∧ username_taken req (db w) = []
     ∧ users (db w') = users (db w) ++ [new_user (drawn_salt env) req (db w)]).
Proof.
  unfold serve.
  destruct (app rt env req _) as [o w1] eqn:Hrun.
  apply app_users in Hrun as [Hsame | (-> & -> & ? & ? & ? & ?)].
  - left. by destruct o.
  - by right.
Qed.

End UsersTable.

(** ** From registration to a verified token *)

Section Sessions.
Context {tokens : TokenService} {hasher : CredentialHasher}.

Lemma step_sole_owner u w w' :
  step w w' → sole_owner u (db w) → sole_owner u (db w').
Proof.
  intros (rt & env & req & ->) Hsole. unfold sole_owner in *.
  destruct (serve_users rt env req w)
    as [Hsame | (_ & _ & _ & Hfree & _ & Happ)].
  - by rewrite Hsame.
  - rewrite Happ, list.filter_app, Hsole. unfold email_taken in Hfree.
    rewrite filter_cons. case_decide as Hemail; [| done].
    simpl in Hemail. rewrite Hemail, Hsole in Hfree. discriminate Hfree.
Qed.

Lemma reachable_sole_owner u w w' :
  reachable w w' → sole_owner u (db w) → sole_owner u (db w').
Proof.
  intros Hreach. induction Hreach as [w | w w1 w' Hstep _ IH]; [done |].
  intros Hsole. apply IH. by apply (step_sole_owner u w).
Qed.

(** A registration that went through makes its row the sole owner of the
    email. *)
Lemma registered_sole_owner env req w :
  fields_given req = true → email_taken req (db w) = [] →
  users (db (serve POST_register env req w).2)
  = users (db w) ++ [new_user (drawn_salt env) req (db w)] →
  sole_owner (new_user (drawn_salt env) req (db w))
    (db (serve POST_register env req w).2).
Proof.
  intros Hgiven Hfree Happ. unfold sole_owner. rewrite Happ, list.filter_app.
  unfold email_taken in Hfree. simpl. rewrite Hfree.
  rewrite filter_cons. by rewrite decide_True.
Qed.

(** A registration answered 201: it answered with the new row, after a
    look-up of the email that came back empty, and the row is in the
    table. *)
Lemma serve_register_created env req w resp :
  (serve POST_register env req w).1 = Some resp → status resp = 201 →
  resp = Response 201
           (Registered "User registered successfully"
              (Some (new_user (drawn_salt env) req (db w))))
  ∧ fields_given req = true ∧ email_taken req (db w) = []
  ∧ users (db (serve POST_register env req w).2)
    = users (db w) ++ [new_user (drawn_salt env) req (db w)].
Proof.
  unfold serve. simpl.
  destruct (register _ _ _) as [o w1] eqn:Hrun.
  apply register_inv in Hrun
    as (r & -> & [(-> & ? & ? & _ & Hdb) | [Hne _]]); simpl.
  - intros [= <-] _. by rewrite Hdb.
  - by intros [= <-] Hst.
Qed.

Lemma fields_given_text req :
  fields_given req = true →
  ∃ name mail pw,
    body req !! "username" = Some name ∧ body req !! "email" = Some mail
    ∧ body req !! "password" = Some pw ∧ mail ≠ "" ∧ pw ≠ "".
Proof.
  unfold fields_given. rewrite negb_true_iff, !orb_false_iff, !js_not_false.
  intros [[(name & Hn & _) (mail & Hm & ?)] (pw & Hp & ?)].
  by exists name, mail, pw.
Qed.

End Sessions.

(** ** Registrations that interleave *)

(** Run to its answer with nothing in between, the handler cut at its
    awaits is the handler. *)
Lemma register_in_flight_run {hasher : CredentialHasher} salt req w :
  to_completion (register_in_flight salt req) w = register salt req w.
Proof.
  unfold register_in_flight, register.
  destruct (Js.not _ || Js.not _ || Js.not _); [reflexivity |].
  cbn [to_completion]. unfold_async.
  destruct (pool_query _ _ w) as [[checkEmail | err] w1]; [| reflexivity].
  destruct (bool_decide _); [reflexivity |].
  cbn [to_completion]. unfold_async.
  destruct (pool_query _ _ w1) as [[checkUsername | err] w2]; [| reflexivity].
  destruct (bool_decide _); [reflexivity |].
  cbn [to_completion]. unfold_async.
  destruct (pool_query _ _ w2) as [[result | err] w3]; reflexivity.
Qed.

(** Scheduled alone, a registration runs to the answer of the handler. *)
Lemma register_alone {hasher : CredentialHasher} salt req w :
  ∃ o, interleave [0; 0; 0]%nat [register_in_flight salt req] w
       = ([Finished o], (register salt req w).2)
       ∧ (register salt req w).1 = o.
Proof.
  rewrite <- register_in_flight_run.
  unfold register_in_flight.
  destruct (Js.not _ || Js.not _ || Js.not _);
    [eexists; split; reflexivity |].
  cbn [interleave lookup list_lookup advance to_completion insert list_insert].
  unfold query_users.
  destruct (pool_query _ _ w) as [[checkEmail | err] w1];
    [| eexists; split; reflexivity].
  destruct (bool_decide _); [eexists; split; reflexivity |].
  cbn [interleave lookup list_lookup advance to_completion insert list_insert].
  unfold query_users.
  destruct (pool_query _ _ w1) as [[checkUsername | err] w2];
    [| eexists; split; reflexivity].
  destruct (bool_decide _); [eexists; split; reflexivity |].
  cbn [interleave lookup list_lookup advance to_completion insert list_insert].
  unfold query_users.
  destruct (pool_query _ _ w2) as [[result | err] w3];
    eexists; split; reflexivity.
Qed.

(** C1, as the code has it.  With requests served one after the other,
    when a registration has answered 201, then after any number of further
    requests a login with the email and the password that were registered
    answers 200 with a token, and at any time within the hour that follows
    verify accepts the token and decodes the userId, the username and the
    email of the row the registration stored. *)
Theorem login_after_registration_round_trip
    {tokens : TokenService} {hasher : CredentialHasher}
    (env env' : environment) (reg creds : request) (w0 w2 : world) (now' : Z) :
  let registered := serve POST_register env reg w0 in
  let u := new_user (drawn_salt env) reg (db w0) in
  (∃ resp, registered.1 = Some resp ∧ status resp = 201) →
  reachable registered.2 w2 →
  body creds !! "email" = body reg !! "email" →
  body creds !! "password" = body reg !! "password" →
  quiet (pool_faults env') = true →
  clock env' ≤ now' < clock env' + one_hour →
  registered.1
  = Some (Response 201 (Registered "User registered successfully" (Some u)))
  ∧ u ∈ users (db w2)
  ∧ ∃ token w3,
      serve POST_login env' creds w2
      = (Some (Response 200 (LoggedIn "Login successful" token)), w3)
      ∧ jwt_verify token secret now'
        = inr (Jwt.Payload
                 (Jwt.Claims (User.id u) (User.username u) (User.email u))
                 (clock env') (clock env' + one_hour)).
Proof.
  intros registered u (resp & Hresp & Hstatus) Hreach Hmail Hpw Hquiet Hnow.
  destruct (serve_register_created env reg w0 resp Hresp Hstatus)
    as (Hanswer & Hgiven & Hfree & Happ).
  subst registered. rewrite Hresp, Hanswer.
  split; [done |].
  pose proof (registered_sole_owner env reg w0 Hgiven Hfree Happ) as Hsole.
  apply (reachable_sole_owner _ _ _ Hreach) in Hsole. fold u in Hsole.
  assert (u ∈ users (db w2)) as Hin.
  { apply (list_elem_of_filter (λ r, User.email r = User.email u)).
    unfold sole_owner in Hsole. rewrite Hsole. left. }
  split; [exact Hin |].
  destruct (fields_given_text _ Hgiven) as (name & mail & pw & Hn & Hm & Hp & ? & ?).
  unfold serve. simpl.
  rewrite login_quiet; [| | done].
  2:{ rewrite Hmail, Hpw, Hm, Hp. simpl. by rewrite !bool_decide_eq_false_2. }
  eexists _, _. cbn [db]. unfold login_answer, login_found.
  rewrite Hmail.
  change (Js.text (body reg !! "email")) with (User.email u).
  unfold sole_owner in Hsole. rewrite Hsole. simpl.
  rewrite Hpw. rewrite bcrypt_compare_hash.
  split; [done |]. unfold login_token. by apply jwt_verify_sign.
Qed.

Lemma login_after_registration_round_trip_witness :
  let serve' :=
    serve (tokens := reference_tokens)
      (hasher := reference_hasher) in
  let alice := post [("username", "alice"); ("email", "a@x.com"); ("password", "pw1")] in
  let bob := post [("username", "bob"); ("email", "b@x.com"); ("password", "pw2")] in
  let w1 := (serve' POST_register (Environment 1000 "s1" []) alice boot).2 in
  let w2 := (serve' POST_register (Environment 1500 "s2" []) bob w1).2 in
  ∃ token w3,
    serve' POST_login (Environment 2000 "" [])
      (post [("email", "a@x.com"); ("password", "pw1")]) w2
    = (Some (Response 200 (LoggedIn "Login successful" token)), w3)
    ∧ jwt_verify (TokenService := reference_tokens) token secret 5000
      = inr (Jwt.Payload (Jwt.Claims 1 "alice" "a@x.com") 2000 5600).
Proof.
  intros serve' alice bob w1 w2.
  refine (proj2 (proj2
    (login_after_registration_round_trip
       (tokens := reference_tokens) (hasher := reference_hasher)
       (Environment 1000 "s1" []) (Environment 2000 "" []) alice
       (post [("email", "a@x.com"); ("password", "pw1")]) boot w2 5000
       _ _ eq_refl eq_refl eq_refl _))).
  - eexists. split; [vm_compute; reflexivity | reflexivity].
  - apply rtc_once. by exists POST_register, (Environment 1500 "s2" []), bob.
  - unfold one_hour. simpl. lia.
Defined.

(** C1, as the spec words it, fails.  Two registrations with the same
    email whose handlers interleave at their awaits both pass both
    look-ups before either inserts; nothing in the handler makes the three
    statements one transaction, and the pool here rejects none of them.
    Both answer 201 and both rows are stored.  The login look-up then
    returns two rows and the handler takes the first: a login with the
    email and the correct password of the second account is answered
    401. *)
Lemma concurrent_registrations_break_login :
  let first :=
    post [("username", "alice"); ("email", "a@x.com"); ("password", "pw1")] in
  let second :=
    post [("username", "alicia"); ("email", "a@x.com"); ("password", "pw2")] in
  let row1 := User.Row 1 "alice" "a@x.com" (Reference.hash "pw1" 10 "s1") in
  let row2 := User.Row 2 "alicia" "a@x.com" (Reference.hash "pw2" 10 "s2") in
  let created row :=
    Finished (Resolved (Response 201
      (Registered "User registered successfully" (Some row)))) in
  let served :=
    interleave [0; 1; 0; 1; 0; 1]%nat
      [register_in_flight (hasher := reference_hasher) "s1" first;
       register_in_flight (hasher := reference_hasher) "s2" second] boot in
  served.1 = [created row1; created row2]
  ∧ users (db served.2) = [row1; row2]
  ∧ (serve (tokens := reference_tokens) (hasher := reference_hasher)
       POST_login (Environment 2000 "" [])
       (post [("email", "a@x.com"); ("password", "pw2")]) served.2).1
    = Some (Response 401 (Error "Incorrect password")).
Proof. repeat split; vm_compute; reflexivity. Qed.

(** ** Passwords at rest *)

(** C5. A registration that answers 201 stores, and returns, a row whose
    password is the salted hash of the submitted password, which is not
    the submitted text.  No request writes anything else to the users
    table: a request leaves the table as it is or is a registration
    appending that one row, so that stored passwords being digests is
    kept by every request and holds of every state the server reaches
    from an empty database. *)
Theorem password_is_stored_hashed
    {tokens : TokenService} {hasher : CredentialHasher} :
  (∀ env req w resp,
     (serve POST_register env req w).1 = Some resp → status resp = 201 →
     ∃ row plain,
       body req !! "password" = Some plain
       ∧ sent_body resp = Registered "User registered successfully" (Some row)
       ∧ users (db (serve POST_register env req w).2) = users (db w) ++ [row]
       ∧ User.password row = bcrypt_hash plain 10 (drawn_salt env)
       ∧ User.password row ≠ plain)
  ∧ (∀ rt env req w,
       let w' := (serve rt env req w).2 in
       users (db w') = users (db w)
       ∨ (rt = POST_register
          ∧ users (db w') = users (db w) ++ [new_user (drawn_salt env) req (db w)]))
  ∧ (∀ w w', step w w' → hashed_at_rest (db w) → hashed_at_rest (db w'))
  ∧ (∀ w, reachable boot w → hashed_at_rest (db w)).
Proof.
  assert (∀ w w', step w w' → hashed_at_rest (db w) → hashed_at_rest (db w'))
    as Hstep.
  { intros w w' (rt & env & req & ->) Hrest.
    destruct (serve_users rt env req w) as [Hsame | (_ & _ & _ & _ & _ & Happ)];
      unfold hashed_at_rest.
    - by rewrite Hsame.
    - rewrite Happ. intros row [Hold | ->%list_elem_of_singleton]%elem_of_app.
      + by apply Hrest.
      + by eexists _, _. }
  split; [| split; [| split]].
  - intros env req w resp Hresp Hstatus.
    destruct (serve_register_created env req w resp Hresp Hstatus)
      as (-> & Hgiven & _ & Happ).
    destruct (fields_given_text _ Hgiven) as (name & mail & pw & _ & _ & Hp & _).
    exists (new_user (drawn_salt env) req (db w)), pw.
    repeat split; try done.
    + simpl. by rewrite Hp.
    + simpl. rewrite Hp. apply bcrypt_hash_one_way.
  - intros rt env req w w'.
    destruct (serve_users rt env req w) as [Hsame | (-> & _ & _ & _ & _ & Happ)];
      [by left | by right].
  - exact Hstep.
  - intros w Hreach.
    assert (∀ w0 w, reachable w0 w → hashed_at_rest (db w0) → hashed_at_rest (db w))
      as Hkept.
    { intros w0 w1 Hr. induction Hr as [w0 | w0 w1 w2 Hs _ IH]; [done |].
      intros Hw0. apply IH. by apply (Hstep w0). }
    apply (Hkept boot w Hreach).
    intros row Hrow. by apply elem_of_nil in Hrow.
Qed.

Lemma password_is_stored_hashed_witness :
  let env := Environment 1000 "s1" [] in
  let req := post [("username", "alice"); ("email", "a@x.com"); ("password", "pw1")] in
  let served :=
    serve (tokens := reference_tokens)
      (hasher := reference_hasher) POST_register env req boot in
  ∃ row plain,
    body req !! "password" = Some plain
    ∧ users (db served.2) = [row]
    ∧ User.password row = Reference.hash plain 10 "s1"
    ∧ User.password row ≠ plain.
Proof.
  intros env req served.
  destruct (proj1
    (password_is_stored_hashed
       (tokens := reference_tokens) (hasher := reference_hasher))
    env req boot _ eq_refl eq_refl) as (row & plain & Hp & _ & Husers & Hhash & Hne).
  by exists row, plain.
Defined.

(** ** Expiry *)

(** A login that answers with a token signed it for the row it found. *)
Lemma login_token_inv {tokens : TokenService} {hasher : CredentialHasher}
    now req w msg token w' :
  login now req w = (Resolved (Response 200 (LoggedIn msg token)), w') →
  ∃ user, user ∈ users (db w) ∧ token = login_token now user.
Proof.
  unfold login. destruct (Js.not _ || Js.not _); [by unfold_async |].
  unfold_async. intros Hrun. await; [simplify_eq |].
  destruct (head _) as [user |] eqn:Hhead; [| simplify_eq].
  destruct (negb _); simplify_eq.
  exists user. split; [| done].
  apply head_Some_elem_of in Hhead.
  by apply list_elem_of_filter in Hhead as [_ Hin].
Qed.

Lemma login_token_nonempty {tokens : TokenService} now user :
  login_token now user ≠ "".
Proof.
  intros Hempty.
  pose proof (jwt_verify_sign
    (Jwt.Claims (User.id user) (User.username user) (User.email user))
    secret one_hour now now) as Hok.
  unfold login_token in Hempty. rewrite Hempty, jwt_verify_empty in Hok.
  unfold one_hour in Hok. by discriminate Hok; lia.
Qed.

(** C9. A token issued by login, which sets its expiry one hour after
    issue, is refused by verify as expired at any time later than issue
    plus the hour, and the middleware then answers 400 and does not let
    the request through: the world is untouched. *)
Theorem expired_token_is_refused
    {tokens : TokenService} {hasher : CredentialHasher}
    (env : environment) (creds : request) (w w' : world)
    (message token : string) (now' : Z)
    (next : request → Async response) (req : request) (w2 : world) :
  serve POST_login env creds w
  = (Some (Response 200 (LoggedIn message token)), w') →
  clock env + one_hour < now' →
  authorization req = Some ("Bearer " +:+ token) →
  jwt_verify token secret now' = inl Jwt.Expired
  ∧ authenticate now' next req w2
    = (Resolved (Response 400 (Error "Invalid token")), w2).
Proof.
  intros Hlogin Hlate Hheader.
  unfold serve in Hlogin. simpl in Hlogin.
  destruct (login _ _ _) as [[resp | e] w1] eqn:Hrun; [| discriminate Hlogin].
  injection Hlogin as -> ->.
  apply login_token_inv in Hrun as (user & _ & ->).
  assert (jwt_verify (login_token (clock env) user) secret now' = inl Jwt.Expired)
    as Hexpired by by apply jwt_verify_expired.
  split; [exact Hexpired |].
  apply (authenticate_refused _ _ _ _ _ Jwt.Expired Hheader).
  - discriminate.
  - intros Heq. apply (login_token_nonempty (clock env) user).
    change "Bearer " with ("Bearer " +:+ "") in Heq at 2.
    by apply (inj (String.app "Bearer ")) in Heq.
  - unfold bearer_token. by rewrite replace_prefix.
Qed.

Lemma expired_token_is_refused_witness :
  let hashed := Reference.hash "pw1" 10 "s" in
  let w := World (Database [User.Row 1 "alice" "a@x.com" hashed] 1 [] 0) [] [] in
  let token :=
    jwt_sign (TokenService := reference_tokens)
      (Jwt.Claims 1 "alice" "a@x.com") secret one_hour 1000 in
  jwt_verify (TokenService := reference_tokens) token secret 4601
  = inl Jwt.Expired
  ∧ authenticate (tokens := reference_tokens) 4601 get_skills
      (bearer token [] 0) w
    = (Resolved (Response 400 (Error "Invalid token")), w).
Proof.
  intros hashed w token.
  refine (expired_token_is_refused
    (tokens := reference_tokens) (hasher := reference_hasher)
    (Environment 1000 "" []) (post [("email", "a@x.com"); ("password", "pw1")])
    w _ "Login successful" token 4601 get_skills (bearer token [] 0) w
    eq_refl _ eq_refl).
  unfold one_hour. simpl. lia.
Defined.

(* ===================================================================== *)
(** * Further properties of the routes *)
(* ===================================================================== *)

(** Run a handler, whose run is a hypothesis, through every branch and
    every answer of the pool. *)
Ltac run_cases :=
  repeat first
    [ progress simplify_eq
    | await
    | match goal with
      | H : context [if ?b then _ else _] |- _ => destruct b eqn:?
      | H : context [match user ?r with _ => _ end] |- _ => destruct (user r)
      | H : context [match head ?l with _ => _ end] |- _ =>
          destruct (head l) eqn:?
      end ].

(** The tables of the world reached, in terms of the world left. *)
Ltac trace_db :=
  repeat match goal with
         | H : db _ = _ |- _ =>
             rewrite H; clear H; cbn [users users_id_seq skills skills_id_seq]
         end.

Ltac status_in :=
  cbn [status];
  by repeat first [apply list_elem_of_here | apply list_elem_of_further].

Ltac answered :=
  eexists; split; [reflexivity |]; split; [trace_db; done | status_in].

(** ** What each handler can answer and what it can touch *)

Section Outcomes.
Context {tokens : TokenService} {hasher : CredentialHasher}.

Lemma root_outcome req w o w' :
  root req w = (o, w') →
  ∃ resp, o = Resolved resp ∧ w' = w ∧ status resp ∈ [200].
Proof. unfold root. unfold_async. intros [= <- <-]. answered. Qed.

Lemma get_users_outcome req w o w' :
  get_users req w = (o, w') →
  ∃ resp, o = Resolved resp ∧ db w' = db w ∧ status resp ∈ [200; 500].
Proof.
  unfold get_users. unfold_async. intros Hrun. run_cases; answered.
Qed.

Lemma register_outcome salt req w o w' :
  register salt req w = (o, w') →
  ∃ resp, o = Resolved resp
    ∧ (skills (db w') = skills (db w) ∧ skills_id_seq (db w') = skills_id_seq (db w))
    ∧ status resp ∈ [400; 201; 500].
Proof.
  unfold register. unfold_async. intros Hrun. run_cases; answered.
Qed.

Lemma login_outcome now req w o w' :
  login now req w = (o, w') →
  ∃ resp, o = Resolved resp ∧ db w' = db w
    ∧ status resp ∈ [400; 404; 401; 200; 500].
Proof.
  unfold login. unfold_async. intros Hrun. run_cases; answered.
Qed.

Lemma get_skills_outcome req w o w' :
  get_skills req w = (o, w') →
  ∃ resp, o = Resolved resp ∧ db w' = db w ∧ status resp ∈ [200; 500].
Proof.
  unfold get_skills, req_user_userId. unfold_async. intros Hrun.
  run_cases; answered.
Qed.

Lemma post_skills_outcome req w o w' :
  post_skills req w = (o, w') →
  ∃ resp, o = Resolved resp
    ∧ (users (db w') = users (db w) ∧ users_id_seq (db w') = users_id_seq (db w))
    ∧ status resp ∈ [400; 201; 500].
Proof.
  unfold post_skills, req_user_userId. unfold_async. intros Hrun.
  run_cases; answered.
Qed.

Lemma put_skill_outcome req w o w' :
  put_skill req w = (o, w') →
  ∃ resp, o = Resolved resp
    ∧ (users (db w') = users (db w) ∧ users_id_seq (db w') = users_id_seq (db w))
    ∧ status resp ∈ [400; 404; 200; 500].
Proof.
  unfold put_skill. unfold_async. intros Hrun. run_cases; answered.
Qed.

Lemma delete_skill_outcome req w o w' :
  delete_skill req w = (o, w') →
  ∃ resp, o = Resolved resp
    ∧ (users (db w') = users (db w) ∧ users_id_seq (db w') = users_id_seq (db w))
    ∧ status resp ∈ [404; 200; 500].
Proof.
  unfold delete_skill. unfold_async. intros Hrun. run_cases; answered.
Qed.

(** Behind the middleware a handler keeps what it keeps and answers what
    it answers, or the middleware answers 401 or 400 itself. *)
Lemma authenticate_outcome now next req w o w'
    (kept : world → world → Prop) (codes : list Z) :
  (∀ w, kept w w) →
  (∀ req w o w', next req w = (o, w') →
     ∃ resp, o = Resolved resp ∧ kept w w' ∧ status resp ∈ codes) →
  authenticate now next req w = (o, w') →
  ∃ resp, o = Resolved resp ∧ kept w w' ∧ status resp ∈ 401 :: 400 :: codes.
Proof.
  intros Hrefl Hnext Hrun.
  apply authenticate_inv in Hrun
    as [(resp & -> & -> & Hst) | (decoded & _ & Hrun)].
  - exists resp. split; [done |]. split; [done |].
    destruct Hst as [-> | ->]; [left | right; left].
  - apply Hnext in Hrun as (resp & -> & Hkept & Hin).
    exists resp. split; [done |]. split; [done |]. by do 2 right.
Qed.

End Outcomes.

Lemma serve_app {tokens : TokenService} {hasher : CredentialHasher}
    rt env req w o w' :
  app rt env req (World (db w) (sent w) (pool_faults env)) = (o, w') →
  serve rt env req w
  = (match o with Resolved r => Some r | Rejected _ => None end, w').
Proof. unfold serve. intros ->. by destruct o. Qed.

(** X1. A route never answers with a status that is not its own: when
    the handlers, with the middleware in front of the protected ones,
    answer a request whose body was parsed, whatever the pool settled, the
    status is one of those the route sends.  (Nothing is said of a request
    that gets no answer, as when a call to the pool never settles.) *)
Theorem answers_carry_a_status_of_the_route
    {tokens : TokenService} {hasher : CredentialHasher}
    (rt : route) (env : environment) (req : request) (w : world)
    (answer : response) :
  (serve rt env req w).1 = Some answer → status answer ∈ status_codes rt.
Proof.
  destruct (app rt env req (World (db w) (sent w) (pool_faults env)))
    as [o w'] eqn:Hrun.
  rewrite (serve_app _ _ _ _ _ _ Hrun). cbn [fst].
  assert (∃ resp, o = Resolved resp ∧ status resp ∈ status_codes rt)
    as (resp' & -> & Hin); [| by intros [= <-]].
  destruct rt; cbn [app status_codes] in *.
  - apply root_outcome in Hrun as (resp & -> & _ & ?). eauto.
  - apply (authenticate_outcome _ _ _ _ _ _ (λ _ _, True) [200; 500]) in Hrun
      as (resp & -> & _ & ?); [by exists resp | done |].
    intros ???? (resp & -> & _ & ?)%get_users_outcome. eauto.
  - apply register_outcome in Hrun as (resp & -> & _ & ?). eauto.
  - apply login_outcome in Hrun as (resp & -> & _ & ?). eauto.
  - apply (authenticate_outcome _ _ _ _ _ _ (λ _ _, True) [200; 500]) in Hrun
      as (resp & -> & _ & ?); [by exists resp | done |].
    intros ???? (resp & -> & _ & ?)%get_skills_outcome. eauto.
  - apply (authenticate_outcome _ _ _ _ _ _ (λ _ _, True) [400; 201; 500]) in Hrun
      as (resp & -> & _ & Hin); [| done |].
    + exists resp. split; [done |]. revert Hin. rewrite !elem_of_cons. tauto.
    + intros ???? (resp & -> & _ & ?)%post_skills_outcome. eauto.
  - apply (authenticate_outcome _ _ _ _ _ _ (λ _ _, True) [400; 404; 200; 500])
      in Hrun as (resp & -> & _ & Hin); [| done |].
    + exists resp. split; [done |]. revert Hin. rewrite !elem_of_cons. tauto.
    + intros ???? (resp & -> & _ & ?)%put_skill_outcome. eauto.
  - apply (authenticate_outcome _ _ _ _ _ _ (λ _ _, True) [404; 200; 500])
      in Hrun as (resp & -> & _ & Hin); [| done |].
    + exists resp. split; [done |]. revert Hin. rewrite !elem_of_cons. tauto.
    + intros ???? (resp & -> & _ & ?)%delete_skill_outcome. eauto.
Qed.

Lemma answers_carry_a_status_of_the_route_witness :
  status (Response 404 (Error "User not found")) ∈ status_codes POST_login.
Proof.
  apply (answers_carry_a_status_of_the_route
           (tokens := reference_tokens) (hasher := reference_hasher)
           POST_login (Environment 1000 "" [])
           (post [("email", "nobody@x.com"); ("password", "pw")]) boot).
  reflexivity.
Defined.

(** X2. A route writes at most its own table, whatever the pool does: the
    welcome route, the two listings and login leave the database as it is,
    registration leaves the skills table and its id sequence, and the
    three skill routes leave the users table and its id sequence. *)
Theorem routes_touch_only_their_table
    {tokens : TokenService} {hasher : CredentialHasher}
    (rt : route) (env : environment) (req : request) (w : world) :
  let d := db w in
  let d' := db (serve rt env req w).2 in
  match rt with
  | GET_root | GET_users | POST_login | GET_skills => d' = d
  | POST_register =>
      skills d' = skills d ∧ skills_id_seq d' = skills_id_seq d
  | POST_skills | PUT_skills_id | DELETE_skills_id =>
      users d' = users d ∧ users_id_seq d' = users_id_seq d
  end.
Proof.
  intros d d'. subst d d'.
  destruct (app rt env req (World (db w) (sent w) (pool_faults env)))
    as [o w'] eqn:Hrun.
  rewrite (serve_app _ _ _ _ _ _ Hrun). cbn [snd].
  change (db w) with (db (World (db w) (sent w) (pool_faults env))).
  destruct rt; cbn [app] in Hrun.
  - by apply root_outcome in Hrun as (resp & _ & -> & _).
  - apply (authenticate_outcome _ _ _ _ _ _ (λ w w', db w' = db w) [200; 500])
      in Hrun as (resp & _ & ? & _); [done | done |].
    intros ???? (resp & -> & ? & ?)%get_users_outcome. eauto.
  - by apply register_outcome in Hrun as (resp & _ & ? & _).
  - by apply login_outcome in Hrun as (resp & _ & ? & _).
  - apply (authenticate_outcome _ _ _ _ _ _ (λ w w', db w' = db w) [200; 500])
      in Hrun as (resp & _ & ? & _); [done | done |].
    intros ???? (resp & -> & ? & ?)%get_skills_outcome. eauto.
  - apply (authenticate_outcome _ _ _ _ _ _
             (λ w w', users (db w') = users (db w)
                      ∧ users_id_seq (db w') = users_id_seq (db w))
             [400; 201; 500])
      in Hrun as (resp & _ & ? & _); [done | done |].
    intros ???? (resp & -> & ? & ?)%post_skills_outcome. eauto.
  - apply (authenticate_outcome _ _ _ _ _ _
             (λ w w', users (db w') = users (db w)
                      ∧ users_id_seq (db w') = users_id_seq (db w))
             [400; 404; 200; 500])
      in Hrun as (resp & _ & ? & _); [done | done |].
    intros ???? (resp & -> & ? & ?)%put_skill_outcome. eauto.
  - apply (authenticate_outcome _ _ _ _ _ _
             (λ w w', users (db w') = users (db w)
                      ∧ users_id_seq (db w') = users_id_seq (db w))
             [404; 200; 500])
      in Hrun as (resp & _ & ? & _); [done | done |].
    intros ???? (resp & -> & ? & ?)%delete_skill_outcome. eauto.
Qed.

(** X3. Behind the middleware nothing happens without a token that
    verifies: on each of the five protected routes a request whose header
    verifies to nothing is answered 401 or 400, whatever its body and its
    id, no statement is sent to the pool and the tables are as before;
    the answer is 401 exactly when nothing is left of the header. *)
Theorem protected_routes_need_a_verified_token
    {tokens : TokenService} {hasher : CredentialHasher}
    (rt : route) (env : environment) (req : request) (w : world) :
  protected rt = true →
  (∀ decoded, ¬ verified (clock env) req decoded) →
  ∃ resp,
    serve rt env req w = (Some resp, World (db w) (sent w) (pool_faults env))
    ∧ (status resp = 401 ∨ status resp = 400)
    ∧ (status resp = 401 ↔
       authorization req = None ∨ authorization req = Some ""
       ∨ authorization req = Some "Bearer ").
Proof.
  intros Hprot Hnone.
  assert (∀ next,
    ∃ resp, authenticate (clock env) next req
              (World (db w) (sent w) (pool_faults env))
            = (Resolved resp, World (db w) (sent w) (pool_faults env))
      ∧ (status resp = 401 ∨ status resp = 400)
      ∧ (status resp = 401 ↔
         authorization req = None ∨ authorization req = Some ""
         ∨ authorization req = Some "Bearer ")) as Hgate.
  { intros next.
    destruct (authorization req) as [header |] eqn:Hh.
    - destruct (decide (header = "" ∨ header = "Bearer ")) as [Hempty | Hfull].
      + eexists. rewrite authenticate_missing
          by (rewrite Hh; destruct Hempty as [-> | ->]; tauto).
        split; [done |]. split; [by left |].
        split; [| done]. intros _. destruct Hempty as [-> | ->]; tauto.
      + destruct (jwt_verify (bearer_token header) secret (clock env))
          as [e | decoded] eqn:Hver.
        * eexists. rewrite (authenticate_refused _ _ _ _ header e) by tauto.
          split; [done |]. split; [by right |]. cbn [status].
          split; [done |]. intros [? | [[= ->] | [= ->]]]; [done | tauto..].
        * exfalso. apply (Hnone decoded). by exists header.
    - eexists. rewrite authenticate_missing by (rewrite Hh; tauto).
      split; [done |]. split; [by left |]. split; [tauto | done]. }
  destruct rt; try discriminate Hprot; unfold serve; cbn [app].
  - destruct (Hgate get_users) as (resp & -> & ?). by exists resp.
  - destruct (Hgate get_skills) as (resp & -> & ?). by exists resp.
  - destruct (Hgate post_skills) as (resp & -> & ?). by exists resp.
  - destruct (Hgate put_skill) as (resp & -> & ?). by exists resp.
  - destruct (Hgate delete_skill) as (resp & -> & ?). by exists resp.
Qed.

Lemma protected_routes_need_a_verified_token_witness :
  let req :=
    Request (Some "Bearer not-a-token")
      (list_to_map [("skill_name", "Go"); ("proficiency", "expert")]) 5 None in
  let w := World (Database [] 0 [Skill.Row 5 1 "Go" "novice"] 5) [] [] in
  ∃ resp,
    serve (tokens := reference_tokens) (hasher := reference_hasher)
      DELETE_skills_id (Environment 1000 "" []) req w
    = (Some resp, w)
    ∧ (status resp = 401 ∨ status resp = 400).
Proof.
  intros req w.
  destruct (protected_routes_need_a_verified_token
    (tokens := reference_tokens) (hasher := reference_hasher)
    DELETE_skills_id (Environment 1000 "" []) req w eq_refl)
    as (resp & Hrun & Hst & _).
  - intros decoded (header & [= <-] & Hver). vm_compute in Hver. discriminate Hver.
  - by exists resp.
Defined.

(** ** When the pool rejects a statement *)

Lemma pool_query_rejected {R} (tag : statement) (run : database → R * database)
    w fs :
  faults w = true :: fs →
  pool_query tag run w
  = (Rejected pool_error, World (db w) (sent w ++ [tag]) fs).
Proof. unfold pool_query. by intros ->. Qed.

Lemma pool_query_answered {R} (tag : statement) (run : database → R * database)
    w fs :
  faults w = false :: fs →
  pool_query tag run w
  = (Resolved (run (db w)).1, World (run (db w)).2 (sent w ++ [tag]) fs).
Proof. unfold pool_query. intros ->. by destruct (run (db w)). Qed.

(** X4. When the pool rejects the first statement of a handler, the
    handler answers 500 with its own message (registration adds the pool's
    message as details), the statement is on record and the tables are as
    before.  This holds of all seven handlers that query. *)
Theorem rejected_statement_is_answered_500
    {tokens : TokenService} {hasher : CredentialHasher}
    (salt : string) (now : Z) (req : request) (w : world) (fs : list bool) :
  faults w = true :: fs →
  let failed q := World (db w) (sent w ++ [q]) fs in
  (fields_given req = true →
   register salt req w
   = (Resolved (Response 500 (ErrorDetails "Error registering user" pool_error)),
      failed (OnUsers (SelectUsersByEmail (Js.text (body req !! "email"))))))
  ∧ (¬ missing (body req !! "email") → ¬ missing (body req !! "password") →
     login now req w
     = (Resolved (Response 500 (Error "Error logging in user")),
        failed (OnUsers (SelectUsersByEmail (Js.text (body req !! "email"))))))
  ∧ get_users req w
    = (Resolved (Response 500 (Error "Error fetching users")),
       failed (OnUsers SelectUsers))
  ∧ (∀ decoded, user req = Some decoded →
     let caller := Jwt.userId (Jwt.identity decoded) in
     get_skills req w
     = (Resolved (Response 500 (Error "Error fetching skills")),
        failed (OnSkills (SelectSkillsByUser caller)))
     ∧ (skill_fields_given req = true →
        post_skills req w
        = (Resolved (Response 500 (Error "Error adding skill")),
           failed (OnSkills (InsertSkill caller
                               (Js.text (body req !! "skill_name"))
                               (Js.text (body req !! "proficiency")))))))
  ∧ (skill_fields_given req = true →
     put_skill req w
     = (Resolved (Response 500 (Error "Error updating skill")),
        failed (OnSkills (UpdateSkill (Js.text (body req !! "skill_name"))
                            (Js.text (body req !! "proficiency")) (params_id req)))))
  ∧ delete_skill req w
    = (Resolved (Response 500 (Error "Error deleting skill")),
       failed (OnSkills (DeleteSkill (params_id req)))).
Proof.
  intros Hfault failed.
  split; [| split; [| split; [| split; [| split]]]].
  - intros Hgiven%negb_true_iff. unfold register. rewrite Hgiven.
    unfold_async. by rewrite (pool_query_rejected _ _ _ fs).
  - intros He%missing_not Hp%missing_not. unfold login. rewrite He, Hp.
    cbn [orb]. unfold_async. by rewrite (pool_query_rejected _ _ _ fs).
  - unfold get_users. unfold_async. by rewrite (pool_query_rejected _ _ _ fs).
  - intros decoded Hu caller. split.
    + unfold get_skills, req_user_userId. rewrite Hu. unfold_async.
      by rewrite (pool_query_rejected _ _ _ fs).
    + intros Hgiven%negb_true_iff. unfold post_skills, req_user_userId.
      rewrite Hgiven, Hu. unfold_async.
      by rewrite (pool_query_rejected _ _ _ fs).
  - intros Hgiven%negb_true_iff. unfold put_skill. rewrite Hgiven.
    unfold_async. by rewrite (pool_query_rejected _ _ _ fs).
  - unfold delete_skill. unfold_async. by rewrite (pool_query_rejected _ _ _ fs).
Qed.

Lemma rejected_statement_is_answered_500_witness :
  let w := World (Database [] 0 [Skill.Row 5 1 "Go" "novice"] 5) [] [true] in
  delete_skill (Request None ∅ 5 None) w
  = (Resolved (Response 500 (Error "Error deleting skill")),
     World (db w) [OnSkills (DeleteSkill 5)] []).
Proof.
  intros w.
  exact (proj2 (proj2 (proj2 (proj2 (proj2
    (rejected_statement_is_answered_500
       (tokens := reference_tokens) (hasher := reference_hasher)
       "" 0 (Request None ∅ 5 None) w [] eq_refl)))))).
Defined.

(** X5. A registration that the pool stops midway inserts nothing: when
    the look-up of the username is rejected, or when both look-ups came
    back empty and the insert itself is rejected (a constraint of the
    schema, say), the answer is 500 with the pool's message as details and
    the users table is as before. *)
Theorem registration_stopped_midway_inserts_nothing
    {hasher : CredentialHasher} (salt : string) (req : request) (w : world)
    (fs : list bool) :
  fields_given req = true →
  email_taken req (db w) = [] →
  let by_email := OnUsers (SelectUsersByEmail (Js.text (body req !! "email"))) in
  let by_username :=
    OnUsers (SelectUsersByUsername (Js.text (body req !! "username"))) in
  let row := new_user salt req (db w) in
  let insert :=
    OnUsers (InsertUser (User.username row) (User.email row) (User.password row)) in
  let failed := Response 500 (ErrorDetails "Error registering user" pool_error) in
  (faults w = false :: true :: fs →
   register salt req w
   = (Resolved failed, World (db w) (sent w ++ [by_email; by_username]) fs))
  ∧ (faults w = false :: false :: true :: fs →
     username_taken req (db w) = [] →
     register salt req w
     = (Resolved failed,
        World (db w) (sent w ++ [by_email; by_username; insert]) fs)).
Proof.
  intros Hgiven%negb_true_iff Hfree%filter_empty_length.
  intros by_email by_username row insert failed.
  unfold email_taken, username_taken in *. split.
  - intros Hf. unfold register. rewrite Hgiven. unfold_async.
    rewrite (pool_query_answered _ _ _ (true :: fs)) by done.
    cbn [exec_users fst snd]. rewrite Hfree.
    rewrite (pool_query_rejected _ _ _ fs) by done.
    cbn [db sent]. by rewrite <- (assoc_L (++)).
  - intros Hf Hfree'%filter_empty_length. unfold register. rewrite Hgiven.
    unfold_async.
    rewrite (pool_query_answered _ _ _ (false :: true :: fs)) by done.
    cbn [exec_users fst snd]. rewrite Hfree.
    rewrite (pool_query_answered _ _ _ (true :: fs)) by done.
    cbn [exec_users fst snd db]. rewrite Hfree'.
    rewrite (pool_query_rejected _ _ _ fs) by done.
    cbn [db sent]. by rewrite <- !(assoc_L (++)).
Qed.

Lemma registration_stopped_midway_inserts_nothing_witness :
  let req := post [("username", "alice"); ("email", "a@x.com"); ("password", "pw1")] in
  let w := World empty_database [] [false; false; true] in
  register (hasher := reference_hasher) "s" req w
  = (Resolved (Response 500 (ErrorDetails "Error registering user" pool_error)),
     World empty_database
       [OnUsers (SelectUsersByEmail "a@x.com");
        OnUsers (SelectUsersByUsername "alice");
        OnUsers (InsertUser "alice" "a@x.com" (Reference.hash "pw1" 10 "s"))] []).
Proof.
  intros req w.
  exact (proj2
    (registration_stopped_midway_inserts_nothing (hasher := reference_hasher)
       "s" req w [] eq_refl eq_refl) eq_refl eq_refl).
Defined.

(** ** Accounts *)

Section Accounts.
Context {tokens : TokenService} {hasher : CredentialHasher}.

(** A registration whose fields are given, with a pool that answers. *)
Lemma register_quiet salt req w :
  fields_given req = true → quiet (faults w) = true →
  let by_email := OnUsers (SelectUsersByEmail (Js.text (body req !! "email"))) in
  let by_username :=
    OnUsers (SelectUsersByUsername (Js.text (body req !! "username"))) in
  let row := new_user salt req (db w) in
  register salt req w
  = match email_taken req (db w), username_taken req (db w) with
    | _ :: _, _ =>
        (Resolved (Response 400 (Error "Email already exists")),
         World (db w) (sent w ++ [by_email]) (tail (faults w)))
    | [], _ :: _ =>
        (Resolved (Response 400 (Error "Username already exists")),
         World (db w) (sent w ++ [by_email; by_username])
           (tail (tail (faults w))))
    | [], [] =>
        (Resolved (Response 201
           (Registered "User registered successfully" (Some row))),
         World
           (Database (users (db w) ++ [row]) (users_id_seq (db w) + 1)
              (skills (db w)) (skills_id_seq (db w)))
           (sent w ++ [by_email; by_username;
                       OnUsers (InsertUser (User.username row) (User.email row)
                                  (User.password row))])
           (tail (tail (tail (faults w)))))
    end.
Proof.
  intros Hgiven%negb_true_iff Hquiet by_email by_username row.
  unfold register, email_taken, username_taken. rewrite Hgiven.
  unfold_async. await_quiet.
  destruct (filter _ (users (db w))) as [| r l]; [| done].
  cbn [length]. rewrite bool_decide_eq_false_2 by lia.
  await_quiet.
  destruct (filter _ (users (db w))) as [| r l].
  - cbn [length]. rewrite bool_decide_eq_false_2 by lia.
    await_quiet. by rewrite <- !(assoc_L (++)).
  - by rewrite <- !(assoc_L (++)).
Qed.

Lemma filter_nil_not_in_fmap {A B} `{EqDecision B} (f : A → B) (x : B) (l : list A) :
  filter (λ r, f r = x) l = [] → x ∉ f <$> l.
Proof.
  intros Hnil (r & -> & Hin)%list_elem_of_fmap.
  by apply (filter_nil_not_elem_of _ _ r Hnil).
Qed.

Lemma step_unique_accounts w w' :
  step w w' → unique_accounts (db w) → unique_accounts (db w').
Proof.
  intros (rt & env & req & ->) [Hmail Hname]. unfold unique_accounts.
  destruct (serve_users rt env req w)
    as [Hsame | (_ & _ & _ & Hfree & Hfree' & Happ)].
  - by rewrite Hsame.
  - rewrite Happ, !fmap_app. split; apply list.NoDup_app.
    + split; [done |]. split; [| apply NoDup_singleton].
      intros e He ->%list_elem_of_singleton.
      by apply (filter_nil_not_in_fmap _ _ _ Hfree).
    + split; [done |]. split; [| apply NoDup_singleton].
      intros n Hn ->%list_elem_of_singleton.
      by apply (filter_nil_not_in_fmap _ _ _ Hfree').
Qed.

Lemma step_users_prefix w w' :
  step w w' → users (db w) `prefix_of` users (db w').
Proof.
  intros (rt & env & req & ->).
  destruct (serve_users rt env req w) as [-> | (_ & _ & _ & _ & _ & ->)];
    [done |].
  by apply prefix_app_r.
Qed.

Lemma reachable_users_prefix w w' :
  reachable w w' → users (db w) `prefix_of` users (db w').
Proof.
  intros Hreach. induction Hreach as [w | w w1 w' Hstep _ IH]; [done |].
  etrans; [by apply step_users_prefix | done].
Qed.

End Accounts.

(** X6. Served one after the other, requests keep accounts unique: if no
    two rows share an email and no two share a username, the same holds
    after any request, whatever the pool does, and so it holds in every
    state reached from the empty database. *)
Theorem accounts_stay_unique
    {tokens : TokenService} {hasher : CredentialHasher} :
  (∀ w w', step w w' → unique_accounts (db w) → unique_accounts (db w'))
  ∧ (∀ w, reachable boot w → unique_accounts (db w)).
Proof.
  split; [apply @step_unique_accounts |].
  assert (∀ w0 w, reachable w0 w → unique_accounts (db w0) → unique_accounts (db w))
    as Hkept.
  { intros w0 w Hr. induction Hr as [w0 | w0 w1 w2 Hs _ IH]; [done |].
    intros Hw0. apply IH. by apply (step_unique_accounts w0). }
  intros w Hreach. apply (Hkept boot w Hreach).
  split; apply NoDup_nil_2.
Qed.

(** X7. User rows are never changed or removed: after any number of
    requests, whatever the pool does, the users table starts with the rows
    it had, so that every row is still there, at its place and untouched. *)
Theorem users_table_only_grows
    {tokens : TokenService} {hasher : CredentialHasher} (w w' : world) :
  reachable w w' →
  users (db w) `prefix_of` users (db w')
  ∧ (∀ i row, users (db w) !! i = Some row → users (db w') !! i = Some row).
Proof.
  intros Hreach. pose proof (reachable_users_prefix _ _ Hreach) as Hpre.
  split; [exact Hpre |].
  intros i row Hrow. by apply (prefix_lookup_Some (users (db w))).
Qed.

Lemma users_table_only_grows_witness :
  let serve' := serve (tokens := reference_tokens) (hasher := reference_hasher) in
  let alice := post [("username", "alice"); ("email", "a@x.com"); ("password", "pw1")] in
  let bob := post [("username", "bob"); ("email", "b@x.com"); ("password", "pw2")] in
  let w1 := (serve' POST_register (Environment 1000 "s1" []) alice boot).2 in
  let w2 := (serve' POST_register (Environment 1500 "s2" []) bob w1).2 in
  users (db w1) `prefix_of` users (db w2).
Proof.
  intros serve' alice bob w1 w2.
  apply (users_table_only_grows
           (tokens := reference_tokens) (hasher := reference_hasher) w1 w2).
  apply rtc_once. by exists POST_register, (Environment 1500 "s2" []), bob.
Defined.

(** X8. Registering again conflicts: once a registration has answered
    201, then after any number of further requests a registration that
    gives the same email is answered 400 "Email already exists", and one
    that gives the same username is answered 400, with "Username already
    exists" when its email is free; neither changes the tables. *)
Theorem registering_again_conflicts
    {tokens : TokenService} {hasher : CredentialHasher}
    (env env' : environment) (reg again : request) (w0 w2 : world) :
  let registered := serve POST_register env reg w0 in
  (∃ resp, registered.1 = Some resp ∧ status resp = 201) →
  reachable registered.2 w2 →
  fields_given again = true →
  quiet (pool_faults env') = true →
  (body again !! "email" = body reg !! "email" →
   ∃ w3, serve POST_register env' again w2
         = (Some (Response 400 (Error "Email already exists")), w3)
         ∧ db w3 = db w2)
  ∧ (body again !! "username" = body reg !! "username" →
     ∃ resp w3, serve POST_register env' again w2 = (Some resp, w3)
       ∧ status resp = 400 ∧ db w3 = db w2
       ∧ (email_taken again (db w2) = [] →
          sent_body resp = Error "Username already exists")).
Proof.
  intros registered (resp & Hresp & Hstatus) Hreach Hgiven Hquiet.
  destruct (serve_register_created env reg w0 resp Hresp Hstatus)
    as (_ & _ & _ & Happ).
  set (u := new_user (drawn_salt env) reg (db w0)) in *.
  assert (u ∈ users (db w2)) as Hin.
  { destruct (reachable_users_prefix _ _ Hreach) as [k Hk].
    subst registered. rewrite Hk, Happ.
    apply elem_of_app. left. apply elem_of_app. right. left. }
  unfold serve. cbn [app].
  rewrite register_quiet by done. cbn [db sent faults]. split.
  - intros Hmail.
    assert (u ∈ email_taken again (db w2)) as Htaken.
    { apply list_elem_of_filter. split; [| done]. by rewrite Hmail. }
    destruct (email_taken again (db w2)) as [| r l]; [by apply elem_of_nil in Htaken |].
    by eexists.
  - intros Hname.
    assert (u ∈ username_taken again (db w2)) as Htaken.
    { apply list_elem_of_filter. split; [| done]. by rewrite Hname. }
    destruct (username_taken again (db w2)) as [| r l];
      [by apply elem_of_nil in Htaken |].
    destruct (email_taken again (db w2)) as [| r' l']; by eexists _, _.
Qed.

Lemma registering_again_conflicts_witness :
  let serve' := serve (tokens := reference_tokens) (hasher := reference_hasher) in
  let alice := post [("username", "alice"); ("email", "a@x.com"); ("password", "pw1")] in
  let again := post [("username", "alice2"); ("email", "a@x.com"); ("password", "pw9")] in
  let w1 := (serve' POST_register (Environment 1000 "s1" []) alice boot).2 in
  ∃ w3, serve' POST_register (Environment 2000 "s2" []) again w1
        = (Some (Response 400 (Error "Email already exists")), w3)
        ∧ db w3 = db w1.
Proof.
  intros serve' alice again w1.
  refine (proj1
    (registering_again_conflicts
       (tokens := reference_tokens) (hasher := reference_hasher)
       (Environment 1000 "s1" []) (Environment 2000 "s2" []) alice again boot w1
       _ _ eq_refl eq_refl) eq_refl).
  - eexists. split; [vm_compute; reflexivity | reflexivity].
  - reflexivity.
Defined.

(** ** Skill rows *)

Lemma skill_key_set_skill name level r : skill_key (set_skill name level r) = skill_key r.
Proof. done. Qed.

Lemma updated_skills_keys req d :
  skill_key <$> updated_skills req d = skill_key <$> skills d.
Proof.
  unfold updated_skills. induction (skills d) as [| r l IH]; [done |].
  rewrite !fmap_cons, IH.
  by destruct (decide (Skill.id r = params_id req)).
Qed.

Lemma updated_skills_others req d :
  filter (λ r, Skill.id r ≠ params_id req) (updated_skills req d)
  = filter (λ r, Skill.id r ≠ params_id req) (skills d).
Proof.
  unfold updated_skills. induction (skills d) as [| r l IH]; [done |].
  rewrite fmap_cons, !filter_cons, IH.
  destruct (decide (Skill.id r = params_id req)) as [Hid | Hid];
    cbn [set_skill Skill.id].
  - by rewrite !decide_False by tauto.
  - by rewrite !decide_True by done.
Qed.

Lemma updated_skills_hits req d :
  filter (λ r, Skill.id r = params_id req) (updated_skills req d)
  = set_skill (Js.text (body req !! "skill_name"))
      (Js.text (body req !! "proficiency"))
    <$> filter (λ r, Skill.id r = params_id req) (skills d).
Proof.
  unfold updated_skills. induction (skills d) as [| r l IH]; [done |].
  rewrite fmap_cons, !filter_cons, IH.
  destruct (decide (Skill.id r = params_id req)) as [Hid | Hid];
    cbn [set_skill Skill.id].
  - by rewrite !decide_True by done.
  - by rewrite !decide_False by done.
Qed.

Lemma updated_skills_twice req d d' :
  skills d' = updated_skills req d →
  updated_skills req d' = updated_skills req d.
Proof.
  unfold updated_skills. intros ->. induction (skills d) as [| r l IH]; [done |].
  rewrite !fmap_cons, IH. f_equal.
  destruct (decide (Skill.id r = params_id req)) as [Hid | Hid];
    cbn [set_skill Skill.id].
  - by rewrite decide_True.
  - by rewrite decide_False.
Qed.

Lemma filter_twice {A} (P : A → Prop) `{∀ x, Decision (P x)} (l : list A) :
  filter P (filter P l) = filter P l.
Proof.
  induction l as [| x l IH]; [done |].
  rewrite filter_cons. case_decide as HP; [| done].
  rewrite filter_cons. rewrite decide_True by done. by rewrite IH.
Qed.

(** X9. Update and delete touch the rows of the one id and nothing else,
    whatever the pool does: after an update every row has the id and the
    owner it had, in the same place, and the rows of other ids are as they
    were; after a delete the rows of other ids are as they were, and the
    table is either untouched or left with exactly those rows. *)
Theorem update_and_delete_touch_only_the_id
    (req : request) (w : world) (o : settled response) (w' : world) :
  let others := filter (λ r, Skill.id r ≠ params_id req) in
  (put_skill req w = (o, w') →
   skill_key <$> skills (db w') = skill_key <$> skills (db w)
   ∧ others (skills (db w')) = others (skills (db w)))
  ∧ (delete_skill req w = (o, w') →
     others (skills (db w')) = others (skills (db w))
     ∧ (skills (db w') = skills (db w)
        ∨ skills (db w') = others (skills (db w)))).
Proof.
  intros others. split.
  - unfold put_skill. unfold_async. intros Hrun.
    run_cases; trace_db; try done.
    all: fold (updated_skills req (db w)).
    all: split; [apply updated_skills_keys | apply updated_skills_others].
  - unfold delete_skill. unfold_async. intros Hrun.
    run_cases; trace_db; try (split; [done | by left]).
    all: split; [apply filter_twice | by right].
Qed.

Lemma update_and_delete_touch_only_the_id_witness :
  let w :=
    World (Database [] 0 [Skill.Row 5 1 "Go" "novice"; Skill.Row 6 2 "C" "expert"] 6)
      [] [] in
  let req :=
    Request None (list_to_map [("skill_name", "Rust"); ("proficiency", "expert")])
      5 None in
  skill_key <$> skills (db (put_skill req w).2) = [(5, 1); (6, 2)]
  ∧ filter (λ r, Skill.id r ≠ 5) (skills (db (put_skill req w).2))
    = [Skill.Row 6 2 "C" "expert"].
Proof.
  intros w req.
  exact (proj1
    (update_and_delete_touch_only_the_id req w (put_skill req w).1
       (put_skill req w).2) eq_refl).
Defined.

(** X10. An update is idempotent: sent a second time, with a pool that
    answers, it gives the same answer as the first time and leaves the
    tables as the first left them. *)
Theorem update_is_idempotent (req : request) (w w1 : world) :
  skill_fields_given req = true →
  quiet (faults w) = true →
  db w1 = db (put_skill req w).2 →
  quiet (faults w1) = true →
  (put_skill req w1).1 = (put_skill req w).1
  ∧ db (put_skill req w1).2 = db (put_skill req w).2.
Proof.
  intros Hgiven Hquiet Hdb Hquiet'.
  rewrite !put_skill_quiet in * by done. cbn [fst snd db] in *.
  assert (updated_skills req (db w1) = updated_skills req (db w)) as Hsame
    by (apply updated_skills_twice; by rewrite Hdb).
  rewrite Hsame. unfold skill_hits. rewrite !Hdb.
  cbn [users users_id_seq skills skills_id_seq].
  split; [| done].
  rewrite updated_skills_hits.
  by destruct (filter _ (skills (db w))).
Qed.

Lemma update_is_idempotent_witness :
  let w := World (Database [] 0 [Skill.Row 5 1 "Go" "novice"] 5) [] [] in
  let req :=
    Request None (list_to_map [("skill_name", "Rust"); ("proficiency", "expert")])
      5 None in
  (put_skill req (put_skill req w).2).1 = (put_skill req w).1
  ∧ db (put_skill req (put_skill req w).2).2 = db (put_skill req w).2.
Proof.
  intros w req.
  exact (update_is_idempotent req w (put_skill req w).2
           eq_refl eq_refl eq_refl eq_refl).
Defined.

(** X11. A skill that was added is listed to the caller who added it and
    to nobody else: after an authenticated add-skill request went through,
    the listing of the same caller holds, in some order, the rows it would
    have held before and the new row, the listing of a caller with another
    userId holds the rows it would have held before, and every row of a
    listing carries the userId of the caller it is sent to. *)
Theorem added_skill_is_listed_to_its_owner_only {tokens : TokenService}
    (now now' : Z) (req listing : request) (decoded who : Jwt.payload)
    (w : world) :
  verified now req decoded →
  skill_fields_given req = true →
  quiet (faults w) = true →
  verified now' listing who →
  let caller := Jwt.userId (Jwt.identity decoded) in
  let reader := Jwt.userId (Jwt.identity who) in
  let row := new_skill req caller (db w) in
  let before := filter (λ r, Skill.user_id r = reader) (skills (db w)) in
  let w1 := (authenticate now post_skills req w).2 in
  ∃ rows w2,
    authenticate now' get_skills listing w1
    = (Resolved (Response 200 (Skills rows)), w2)
    ∧ (reader = caller → rows ≡ₚ row :: before)
    ∧ (reader ≠ caller → rows ≡ₚ before)
    ∧ (∀ r, r ∈ rows → Skill.user_id r = reader).
Proof.
  intros Hver Hgiven Hquiet Hwho caller reader row before w1.
  subst w1. rewrite (authenticate_verified _ _ _ _ _ Hver).
  rewrite (post_skills_quiet _ _ decoded) by done. cbn [snd].
  rewrite (authenticate_verified _ _ _ _ _ Hwho).
  rewrite (get_skills_quiet _ _ who) by (cbn [faults]; auto using quiet_tail).
  cbn [db skills]. eexists _, _. split; [done |].
  fold reader. rewrite list.filter_app. fold before.
  change (new_skill (with_user req decoded) (Jwt.userId (Jwt.identity decoded)) (db w))
    with row.
  rewrite filter_cons, filter_nil. cbn [Skill.user_id new_skill row].
  split; [| split].
  - intros Heq. rewrite decide_True by done.
    by rewrite (comm (++)).
  - intros Hne. rewrite decide_False by done. by rewrite app_nil_r.
  - intros r [Hin | Hin]%elem_of_app.
    + by apply list_elem_of_filter in Hin as [? _].
    + case_decide as Heq; [| by apply elem_of_nil in Hin].
      apply list_elem_of_singleton in Hin as ->. by symmetry.
Qed.

Lemma added_skill_is_listed_to_its_owner_only_witness :
  let token :=
    jwt_sign (TokenService := reference_tokens)
      (Jwt.Claims 1 "alice" "a@x.com") secret one_hour 1000 in
  let req := bearer token [("skill_name", "Go"); ("proficiency", "expert")] 0 in
  let w1 := (authenticate (tokens := reference_tokens) 1500 post_skills req boot).2 in
  ∃ rows w2,
    authenticate (tokens := reference_tokens) 1600 get_skills (bearer token [] 0) w1
    = (Resolved (Response 200 (Skills rows)), w2)
    ∧ rows ≡ₚ [Skill.Row 1 1 "Go" "expert"].
Proof.
  intros token req w1.
  destruct (added_skill_is_listed_to_its_owner_only (tokens := reference_tokens)
    1500 1600 req (bearer token [] 0)
    (Jwt.Payload (Jwt.Claims 1 "alice" "a@x.com") 1000 4600)
    (Jwt.Payload (Jwt.Claims 1 "alice" "a@x.com") 1000 4600) boot
    (ex_intro _ ("Bearer " +:+ token) (conj eq_refl eq_refl)) eq_refl eq_refl
    (ex_intro _ ("Bearer " +:+ token) (conj eq_refl eq_refl)))
    as (rows & w2 & Hrun & Hmine & _).
  exists rows, w2. split; [exact Hrun |]. exact (Hmine eq_refl).
Defined.

(** ** Tokens *)

(** X12. Login hands out a token only on a match, whatever the pool does:
    a 200 means that the first row the look-up found carries the submitted
    email, that the submitted password verified against the hash stored in
    that row, and that the token was signed for that row. *)
Theorem login_issues_a_token_only_on_a_match
    {tokens : TokenService} {hasher : CredentialHasher}
    (now : Z) (req : request) (w : world) (resp : response) (w' : world) :
  login now req w = (Resolved resp, w') →
  status resp = 200 →
  ∃ row,
    head (login_found req (db w)) = Some row
    ∧ row ∈ users (db w)
    ∧ body req !! "email" = Some (User.email row)
    ∧ bcrypt_compare (Js.text (body req !! "password")) (User.password row) = true
    ∧ sent_body resp = LoggedIn "Login successful" (login_token now row).
Proof.
  unfold login, login_found.
  destruct (Js.not (body req !! "email")) eqn:Hmail;
    [unfold_async; by intros [= <- <-] |].
  destruct (Js.not (body req !! "password")) eqn:Hpw;
    [unfold_async; by intros [= <- <-] |].
  cbn [orb]. unfold_async. intros Hrun Hst.
  await; [by simplify_eq |].
  destruct (head _) as [row |] eqn:Hhead; [| by simplify_eq].
  destruct (bcrypt_compare _ _) eqn:Hcmp; cbn [negb] in Hrun; [| by simplify_eq].
  simplify_eq. exists row. split; [done |].
  apply head_Some_elem_of, list_elem_of_filter in Hhead as [Hrow Hin].
  split; [done |]. split; [| done].
  apply js_not_false in Hmail as (mail & Hm & _).
  rewrite Hm in *. cbn [Js.text default] in Hrow. by rewrite Hrow.
Qed.

Lemma login_issues_a_token_only_on_a_match_witness :
  let hashed := Reference.hash "pw1" 10 "s" in
  let alice := User.Row 1 "alice" "a@x.com" hashed in
  let w := World (Database [alice] 1 [] 0) [] [] in
  let req := post [("email", "a@x.com"); ("password", "pw1")] in
  ∃ row,
    row ∈ users (db w)
    ∧ bcrypt_compare (CredentialHasher := reference_hasher) "pw1" (User.password row)
      = true.
Proof.
  intros hashed alice w req.
  destruct (login_issues_a_token_only_on_a_match
    (tokens := reference_tokens) (hasher := reference_hasher)
    1000 req w _ _ eq_refl eq_refl) as (row & _ & Hin & _ & Hcmp & _).
  by exists row.
Defined.

(** X13. The middleware never looks the caller up: a token that login
    issued is honoured for its hour against any state of the tables, also
    one in which the account is no longer there; the handler then runs
    with the identity of the row the login found. *)
Theorem token_is_honoured_in_any_world
    {tokens : TokenService} {hasher : CredentialHasher}
    (env : environment) (creds : request) (w w' : world)
    (message token : string) (now' : Z)
    (next : request → Async response) (req : request) (w2 : world) :
  serve POST_login env creds w
  = (Some (Response 200 (LoggedIn message token)), w') →
  clock env ≤ now' < clock env + one_hour →
  authorization req = Some ("Bearer " +:+ token) →
  ∃ row,
    row ∈ users (db w)
    ∧ authenticate now' next req w2
      = next
          (with_user req
             (Jwt.Payload
                (Jwt.Claims (User.id row) (User.username row) (User.email row))
                (clock env) (clock env + one_hour)))
          w2.
Proof.
  intros Hlogin Hnow Hheader.
  unfold serve in Hlogin. cbn [app] in Hlogin.
  destruct (login _ _ _) as [[resp | e] w1] eqn:Hrun; [| discriminate Hlogin].
  injection Hlogin as -> ->.
  apply login_token_inv in Hrun as (row & Hin & ->).
  exists row. split; [done |].
  apply authenticate_verified. exists ("Bearer " +:+ login_token (clock env) row).
  split; [done |]. unfold bearer_token. rewrite replace_prefix.
  by apply jwt_verify_sign.
Qed.

Lemma token_is_honoured_in_any_world_witness :
  let hashed := Reference.hash "pw1" 10 "s" in
  let w := World (Database [User.Row 1 "alice" "a@x.com" hashed] 1 [] 0) [] [] in
  let token :=
    jwt_sign (TokenService := reference_tokens)
      (Jwt.Claims 1 "alice" "a@x.com") secret one_hour 1000 in
  ∃ row,
    authenticate (tokens := reference_tokens) 2000 get_skills (bearer token [] 0) boot
    = get_skills
        (with_user (bearer token [] 0)
           (Jwt.Payload
              (Jwt.Claims (User.id row) (User.username row) (User.email row))
              1000 4600))
        boot.
Proof.
  intros hashed w token.
  destruct (token_is_honoured_in_any_world
    (tokens := reference_tokens) (hasher := reference_hasher)
    (Environment 1000 "" []) (post [("email", "a@x.com"); ("password", "pw1")])
    w _ "Login successful" token 2000 get_skills (bearer token [] 0) boot
    eq_refl) as (row & _ & Hrun).
  - unfold one_hour. simpl. lia.
  - reflexivity.
  - by exists row.
Defined.

Lemma has_space_bearer (t : string) : has_space ("Bearer " +:+ t) = true.
Proof. reflexivity. Qed.

(** A text without a space holds no ["Bearer "]: the replacement leaves
    it as it is. *)
Lemma replace_bearer_no_space (s : string) :
  has_space s = false → Js.replace "Bearer " "" s = s.
Proof.
  induction s as [| c s IH]; [done |].
  intros Hs. rewrite replace_unfold.
  destruct (String.prefix "Bearer " (String c s)) eqn:Hpre.
  - apply prefix_true_app in Hpre as [t Ht].
    by rewrite Ht, has_space_bearer in Hs.
  - cbn [has_space] in Hs. apply orb_false_iff in Hs as [_ Hs].
    by rewrite IH.
Qed.

(** X14. The bearer prefix is optional: a header that holds a token alone,
    without a space, is verified as it stands, so that the request is let
    through exactly when the token verifies, as is the request that sends
    the same token after ["Bearer "]. *)
Theorem bare_token_is_verified_as_it_stands {tokens : TokenService}
    (now : Z) (next : request → Async response) (req : request) (w : world)
    (token : string) :
  authorization req = Some token →
  has_space token = false →
  let prefixed := with_authorization (Some ("Bearer " +:+ token)) req in
  (∀ decoded, verified now req decoded ↔ jwt_verify token secret now = inr decoded)
  ∧ (∀ decoded, verified now prefixed decoded ↔ verified now req decoded)
  ∧ (∀ decoded, jwt_verify token secret now = inr decoded →
       authenticate now next req w = next (with_user req decoded) w).
Proof.
  intros Hheader Hbare prefixed.
  assert (∀ decoded,
            verified now req decoded ↔ jwt_verify token secret now = inr decoded)
    as Hreq.
  { intros decoded. unfold verified. rewrite Hheader. split.
    - intros (header & [= <-] & Hver).
      unfold bearer_token in Hver. by rewrite replace_bearer_no_space in Hver.
    - intros Hver. exists token. split; [done |].
      unfold bearer_token. by rewrite replace_bearer_no_space. }
  split; [exact Hreq |]. split.
  - intros decoded. rewrite Hreq. unfold verified, prefixed. cbn [authorization with_authorization].
    split.
    + intros (header & [= <-] & Hver).
      unfold bearer_token in Hver. by rewrite replace_prefix in Hver.
    + intros Hver. exists ("Bearer " +:+ token). split; [done |].
      unfold bearer_token. by rewrite replace_prefix.
  - intros decoded Hver. apply authenticate_verified. by apply Hreq.
Qed.

Lemma bare_token_is_verified_as_it_stands_witness :
  let token :=
    jwt_sign (TokenService := reference_tokens)
      (Jwt.Claims 1 "alice" "a@x.com") secret one_hour 1000 in
  let req := Request (Some token) ∅ 0 None in
  let decoded := Jwt.Payload (Jwt.Claims 1 "alice" "a@x.com") 1000 4600 in
  authenticate (tokens := reference_tokens) 1500 get_skills req boot
  = get_skills (with_user req decoded) boot.
Proof.
  intros token req decoded.
  refine (proj2 (proj2
    (bare_token_is_verified_as_it_stands (tokens := reference_tokens)
       1500 get_skills req boot token eq_refl _)) decoded _).
  - vm_compute. reflexivity.
  - vm_compute. reflexivity.
Defined.

(** ** The user listing *)

(** X15. The user listing hands every stored row to any authenticated
    caller as it is stored, password digest included, and changes
    nothing: with a pool that answers, the answer is 200 with the whole
    users table in storage order. *)
Theorem user_listing_shows_every_row_as_stored {tokens : TokenService}
    (now : Z) (req : request) (decoded : Jwt.payload) (w : world) :
  verified now req decoded →
  quiet (faults w) = true →
  authenticate now get_users req w
  = (Resolved (Response 200 (Users (users (db w)))),
     World (db w) (sent w ++ [OnUsers SelectUsers]) (tail (faults w))).
Proof.
  intros Hver Hquiet. rewrite (authenticate_verified _ _ _ _ _ Hver).
  unfold get_users. unfold_async. by await_quiet.
Qed.

Lemma user_listing_shows_every_row_as_stored_witness :
  let hashed := Reference.hash "pw1" 10 "s" in
  let alice := User.Row 1 "alice" "a@x.com" hashed in
  let w := World (Database [alice] 1 [] 0) [] [] in
  let token :=
    jwt_sign (TokenService := reference_tokens)
      (Jwt.Claims 2 "bob" "b@x.com") secret one_hour 1000 in
  authenticate (tokens := reference_tokens) 1500 get_users (bearer token [] 0) w
  = (Resolved (Response 200 (Users [alice])),
     World (db w) [OnUsers SelectUsers] []).
Proof.
  intros hashed alice w token.
  exact (user_listing_shows_every_row_as_stored (tokens := reference_tokens)
    1500 (bearer token [] 0) (Jwt.Payload (Jwt.Claims 2 "bob" "b@x.com") 1000 4600) w
    (ex_intro _ ("Bearer " +:+ token) (conj eq_refl eq_refl)) eq_refl).
Defined.
